(** * sanipro-cli: session engine and tag lookup

    A shallow embedding of the parts of [saniprocli] and [saniproclidemo]
    that the specification talks about, followed by the properties that
    were checked against it.

    Conventions of the embedding.
    - A Python [str] is a [string]; every [ascii] stands for one code point
      below 256, so whitespace is what [str.isspace] says on that range.
    - A Python [int] is a [Z].
    - A call that may raise returns a [result]; the exception classes the
      code raises or catches are the constructors of [exn].
    - A [dict[str, str]] is a [gmap string string].
    - The terminal is a list of events consumed by the builtin [input]. *)

From Stdlib Require Import Ascii String.
From stdpp Require Import base numbers strings list option gmap.

Local Open Scope list_scope.
Local Open Scope Z_scope.

(** ** Python runtime: exceptions, strings, lists *)

Module Py.

(** The exception classes that occur in the sources.  [KeyboardInterrupt]
    and [SystemExit] derive from [BaseException] only; the others are
    subclasses of [Exception]. *)
Inductive exn : Type :=
  | ValueError (msg : string)
  | IndexError (msg : string)
  | KeyError (msg : string)
  | EOFError (msg : string)
  | KeyboardInterrupt
  | SystemExit (code : Z)
  | OtherException (msg : string).

Definition is_Exception (e : exn) : bool :=
  match e with
  | KeyboardInterrupt | SystemExit _ => false
  | _ => true
  end.

Inductive result (A : Type) : Type :=
  | Ok (a : A)
  | Raise (e : exn).
Arguments Ok {A} a.
Arguments Raise {A} e.

(** Sequencing: the first exception raised propagates. *)
#[global] Instance result_ret : MRet result := fun A a => Ok a.
#[global] Instance result_bind : MBind result := fun A B k r =>
  match r with
  | Ok a => k a
  | Raise e => Raise e
  end.

Definition returns {A} (r : result A) : bool :=
  match r with Ok _ => true | Raise _ => false end.

(** [bool(s)] for a string: the empty string is falsy. *)
Definition truthy (s : string) : bool :=
  match s with
  | EmptyString => false
  | String _ _ => true
  end.

(** [ch.isspace()] on code points below 256: TAB..CR, FS..US, SPACE,
    NEL (0x85) and NBSP (0xA0). *)
Definition isspace (c : ascii) : bool :=
  let n := N_of_ascii c in
  ((9 <=? n)%N && (n <=? 13)%N) || ((28 <=? n)%N && (n <=? 32)%N)
  || (n =? 133)%N || (n =? 160)%N.

Fixpoint lstrip (s : string) : string :=
  match s with
  | EmptyString => EmptyString
  | String c s' => if isspace c then lstrip s' else s
  end.

Fixpoint rstrip (s : string) : string :=
  match s with
  | EmptyString => EmptyString
  | String c s' =>
      match rstrip s' with
      | EmptyString => if isspace c then EmptyString else String c EmptyString
      | r => String c r
      end
  end.

(** [s.strip()] *)
Definition strip (s : string) : string := rstrip (lstrip s).

(** [sep.join(xs)] *)
Fixpoint join (sep : string) (xs : list string) : string :=
  match xs with
  | [] => ""
  | [x] => x
  | x :: rest => x +:+ sep +:+ join sep rest
  end.

(** The scan of [s.split(sep)] for a non-empty [sep]: separators are
    matched left to right and do not overlap.  [skip] counts the characters
    of a matched separator that are still to be passed over; the result is
    the field being read and the fields after it. *)
Fixpoint split_scan (sep : string) (skip : nat) (s : string)
  : string * list string :=
  match s with
  | EmptyString => (EmptyString, [])
  | String c s' =>
      match skip with
      | S n => split_scan sep n s'
      | O =>
          if String.prefix sep s then
            let '(f, fs) := split_scan sep (Nat.pred (String.length sep)) s' in
            (EmptyString, f :: fs)
          else
            let '(f, fs) := split_scan sep O s' in
            (String c f, fs)
      end
  end.

(** [s.split(sep)] with [sep] a string: an empty separator is refused. *)
Definition split (s sep : string) : result (list string) :=
  match sep with
  | EmptyString => Raise (ValueError "empty separator")
  | _ => let '(f, fs) := split_scan sep O s in Ok (f :: fs)
  end.

(** [s.replace(old, new)] for a non-empty [old]; replacing the empty
    string puts [new] before every character and at the end. *)
Fixpoint intersperse_str (new s : string) : string :=
  match s with
  | EmptyString => new
  | String c s' => new +:+ String c (intersperse_str new s')
  end.

Definition replace (s old new : string) : string :=
  match old with
  | EmptyString => intersperse_str new s
  | _ => let '(f, fs) := split_scan old O s in join new (f :: fs)
  end.

(** [xs[i]] for a list: negative indices count from the end, anything
    outside raises [IndexError]. *)
Definition getitem {A} (xs : list A) (i : Z) : result A :=
  let n := Z.of_nat (length xs) in
  let j := if i <? 0 then i + n else i in
  if (j <? 0) || (n <=? j) then Raise (IndexError "list index out of range")
  else match xs !! Z.to_nat j with
       | Some x => Ok x
       | None => Raise (IndexError "list index out of range")
       end.

(** [xs[0] = x]: assignment through an index. *)
Definition setitem0 {A} (xs : list A) (x : A) : result (list A) :=
  match xs with
  | [] => Raise (IndexError "list assignment index out of range")
  | _ :: rest => Ok (x :: rest)
  end.

End Py.

Import Py.


(** ** [saniprocli/textutils.py] *)

Module textutils.

(** An instance of [CSVUtilsBase]: the two attributes set by [__init__]. *)
Record CSVUtilsBase : Type := {
  lines : list string;
  delim : string
}.

Definition is_ranged_or_raise (key_idx value_idx : Z) : result unit :=
  if (key_idx <? 1) || (value_idx <? 1)
  then Raise (ValueError "field number must be 1 or more")
  else Ok tt.

Definition is_different_idx_or_raise (key_idx value_idx : Z) : result unit :=
  if key_idx =? value_idx
  then Raise (ValueError "impossible to specify the same field number")
  else Ok tt.

Section CSVUtilsBase.

(** The abstract method, supplied by the subclass. *)
Variable _do_preprocess : list string -> result (list string).

(** The body of the [for] loop of the generator [preprocess]: what it
    yields for one line. *)
Definition preprocess_line (self : CSVUtilsBase) (line : string)
  : result (list string) :=
  let line := strip line in
  columns ← split line (delim self);
  processed ← _do_preprocess columns;
  Ok processed.

(** The dict comprehension [{row[k]: row[v] for row in it}] pulling rows
    from the generator one at a time; a later row with the same key
    overwrites the earlier entry. *)
Fixpoint comprehension (self : CSVUtilsBase) (k v : Z)
    (lines : list string) (acc : gmap string string)
  : result (gmap string string) :=
  match lines with
  | [] => Ok acc
  | line :: rest =>
      row ← preprocess_line self line;
      key ← getitem row k;
      val ← getitem row v;
      comprehension self k v rest (<[key := val]> acc)
  end.

Definition prepare_kv (self : CSVUtilsBase) (key_idx value_idx : Z)
  : result (gmap string string) :=
  _ ← is_ranged_or_raise key_idx value_idx;
  _ ← is_different_idx_or_raise key_idx value_idx;
  let lines := lines self in
  let k := key_idx - 1 in
  let v := value_idx - 1 in
  match comprehension self k v lines ∅ with
  | Raise (IndexError _) =>
      Raise (IndexError "failed to get the element of the row number")
  | r => r
  end.

(** [create_dict_from_io(text, delim, key_idx, value_idx)] *)
Definition create_dict_from_io (text : list string) (delim : string)
    (key_idx value_idx : Z) : result (gmap string string) :=
  let lines := text in
  prepare_kv {| lines := lines; delim := delim |} key_idx value_idx.

End CSVUtilsBase.

End textutils.

(** ** [saniproclidemo/tfind.py] *)

Module tfind.

(** [sanipro.delimiter.Delimiter]: the three separators; the field
    separator may be [None]. *)
Record Delimiter : Type := {
  sep_input : string;
  sep_output : string;
  sep_field : option string
}.

Module CsvUtils.

Definition replace_underscore (line : string) : string :=
  let line := strip line in
  let line := replace line "_" " " in
  line.

Definition _do_preprocess (column : list string) : result (list string) :=
  c0 ← getitem column 0;
  column ← setitem0 column (replace_underscore c0);
  Ok column.

Definition preprocess_line := textutils.preprocess_line _do_preprocess.
Definition prepare_kv := textutils.prepare_kv _do_preprocess.
Definition create_dict_from_io :=
  textutils.create_dict_from_io _do_preprocess.

End CsvUtils.

Module TFindEscaper.

(** The character class of the pattern [([\(\)])]. *)
Definition parentheses (c : ascii) : bool :=
  (Ascii.eqb c "(" || Ascii.eqb c ")")%char.

(** [re.sub(parentheses, r"\\\g<1>", text)]: one left-to-right pass;
    each match is one character and is replaced by a backslash followed
    by the matched character. *)
Fixpoint escape_parentheses (text : string) : string :=
  match text with
  | EmptyString => EmptyString
  | String c rest =>
      if parentheses c
      then String "\" (String c (escape_parentheses rest))
      else String c (escape_parentheses rest)
  end.

End TFindEscaper.

Module Formatter.

Definition choices : list string := ["a1111"; "a1111compat"; "csv"].

Definition to_csv (token : string) : string := token.

Definition to_a1111 (token : string) : string :=
  TFindEscaper.escape_parentheses token.

(** [sanipro.token.Escaper.escape] belongs to another package; it is a
    parameter here. *)
Definition to_a1111_compat (Escaper_escape : string -> string)
    (token : string) : string :=
  let token := TFindEscaper.escape_parentheses token in
  Escaper_escape token.

End Formatter.

Record TokenFinder : Type := {
  _delimiter : Delimiter;
  _formatter : string -> string
}.

(** The [for] loop of [TokenFinder.execute] over the tokens that are left;
    the result is what the loop appends to [result]. *)
Fixpoint execute_loop (self : TokenFinder) (field_d : string)
    (kvstore : gmap string string) (tokens : list string) : list string :=
  match tokens with
  | [] => []
  | token :: tokens' =>
      let new_token := strip token in
      if negb (truthy new_token) then [] (* break *)
      else
        let nums := default "NULL" (kvstore !! new_token) in
        let token_escaped := _formatter self new_token in
        let columns := [token_escaped; nums] in
        let serialized := join field_d columns in
        serialized :: execute_loop self field_d kvstore tokens'
  end.

Definition execute (self : TokenFinder) (prompt : string)
    (kvstore : gmap string string) : result string :=
  let in_d := sep_input (_delimiter self) in
  let out_d := sep_output (_delimiter self) in
  match sep_field (_delimiter self) with
  | None => Raise (ValueError "field delimiter is None")
  | Some field_d =>
      tokens ← split prompt in_d;
      let result := execute_loop self field_d kvstore tokens in
      Ok (join out_d result)
  end.

(** [RunnerTagFindNonInteractive]: the finder and the table it was built
    with, and the execution callback it gives to the session. *)
Module RunnerTagFindNonInteractive.

Record t : Type := {
  _app : TokenFinder;
  tags_n_count : gmap string string
}.

Definition _execute_single_inner (self : t) (source : string)
  : result string :=
  execute (_app self) source (tags_n_count self).

End RunnerTagFindNonInteractive.

End tfind.

(** ** [saniprocli/inputs.py] *)

Module inputs.

(** What the terminal answers to one call of the builtin [input]: a line
    (without its newline), end of file (^D), or an interrupt (^C). *)
Inductive tty_event : Type :=
  | Line (s : string)
  | Eof
  | Interrupt.

(** The terminal: the answers still to come, the prompt argument of every
    call of [input] so far, and what went through [sys.stdout.write]. *)
Record Console : Type := {
  stdin : list tty_event;
  prompted : list (option string);
  stdout : list string
}.

(** The builtin [input(prompt)].  A terminal with nothing left to answer
    is at end of file. *)
Definition builtin_input (prompt : option string) (c : Console)
  : result string * Console :=
  let shown := prompted c ++ [prompt] in
  match stdin c with
  | Line s :: rest =>
      (Ok s, {| stdin := rest; prompted := shown; stdout := stdout c |})
  | Interrupt :: rest =>
      (Raise KeyboardInterrupt,
       {| stdin := rest; prompted := shown; stdout := stdout c |})
  | Eof :: rest =>
      (Raise (EOFError "EOF when reading a line"),
       {| stdin := rest; prompted := shown; stdout := stdout c |})
  | [] =>
      (Raise (EOFError "EOF when reading a line"),
       {| stdin := []; prompted := shown; stdout := stdout c |})
  end.

Module OnelineInputStrategy.

Record t : Type := { ps1 : option string }.

Definition __init__ (ps1 : option string) : t := {| ps1 := ps1 |}.

Definition input (self : t) (prompt : option string) (c : Console)
  : result string * t * Console :=
  let prompt := match prompt with None => ps1 self | Some _ => prompt end in
  let '(r, c) := builtin_input prompt c in
  (r, self, c).

End OnelineInputStrategy.

Module MultipleInputStrategy.

Record t : Type := { ps1 : string; ps2 : string }.

Definition __init__ (ps1 ps2 : string) : t :=
  if negb (String.eqb ps1 "") && String.eqb ps2 ""
  then {| ps1 := ps1; ps2 := ps1 |}
  else {| ps1 := ps1; ps2 := ps2 |}.

(** What the [except EOFError] branch does with the buffer. *)
Definition on_eof (buffer : list string) (rest : list tty_event)
    (shown : list (option string)) (out : list string)
  : result string * Console :=
  match buffer with
  | _ :: _ =>
      (Ok (join "" buffer),
       {| stdin := rest; prompted := shown; stdout := out ++ [String "010" ""] |})
  | [] =>
      (Raise (EOFError "EOF when reading a line"),
       {| stdin := rest; prompted := shown; stdout := out |})
  end.

(** The [while True] loop of [input], with [self.ps2] as it is when the
    loop starts (the loop does not assign it). *)
Fixpoint read_loop (self_ps2 : string) (_prompt : option string)
    (buffer : list string) (tty : list tty_event)
    (shown : list (option string)) (out : list string)
  : result string * Console :=
  match tty with
  | Line line :: rest =>
      read_loop self_ps2 (Some self_ps2) (buffer ++ [line]) rest
        (shown ++ [_prompt]) out
  | Interrupt :: rest =>
      (Raise KeyboardInterrupt,
       {| stdin := rest; prompted := shown ++ [_prompt]; stdout := out |})
  | Eof :: rest => on_eof buffer rest (shown ++ [_prompt]) out
  | [] => on_eof buffer [] (shown ++ [_prompt]) out
  end.

Definition input (self : t) (prompt : option string) (c : Console)
  : result string * t * Console :=
  let buffer : list string := [] in
  let '(self, _prompt) :=
    match prompt with
    | Some p => ({| ps1 := p; ps2 := p |}, None)
    | None => (self, Some (ps1 self))
    end in
  let '(r, c) :=
    read_loop (ps2 self) _prompt buffer (stdin c) (prompted c) (stdout c) in
  (r, self, c).

End MultipleInputStrategy.

Module DirectInputStrategy.

(** Modelled from the spec: [DirectInputStrategy] is named by
    [CliCommandsDemo._get_input_strategy] but not defined in [inputs.py].
    It wraps an already-available string; a single call returns it, a
    later call fails with end of input. *)
Record t : Type := { available : option string }.

(** Modelled from the spec: the constructor of [DirectInputStrategy],
    absent from [inputs.py]; it wraps the string that is already
    available. *)
Definition __init__ (text : string) : t := {| available := Some text |}.

(** Modelled from the spec: [DirectInputStrategy.input], absent from
    [inputs.py]; a single call returns the wrapped string, a second call
    fails with [EOFError]. *)
Definition input (self : t) (prompt : option string)
  : result string * t :=
  match available self with
  | Some text => (Ok text, {| available := None |})
  | None => (Raise (EOFError "EOF when reading a line"), self)
  end.

End DirectInputStrategy.

(** The closed set of strategies behind the [InputStrategy] interface. *)
Inductive InputStrategy : Type :=
  | Oneline (s : OnelineInputStrategy.t)
  | Multiple (s : MultipleInputStrategy.t)
  | Direct (s : DirectInputStrategy.t).

Definition input (self : InputStrategy) (prompt : option string) (c : Console)
  : result string * InputStrategy * Console :=
  match self with
  | Oneline s =>
      let '(r, s, c) := OnelineInputStrategy.input s prompt c in
      (r, Oneline s, c)
  | Multiple s =>
      let '(r, s, c) := MultipleInputStrategy.input s prompt c in
      (r, Multiple s, c)
  | Direct s =>
      let '(r, s) := DirectInputStrategy.input s prompt in
      (r, Direct s, c)
  end.

End inputs.

(** ** [CliCommandsDemo._get_input_strategy] of [saniproclidemo/tfind.py] *)

Module CliCommandsDemo.

(** The attributes of the argument namespace that the method reads. *)
Record CliArgsNamespaceDemo : Type := {
  interactive : bool;
  one_line : bool;
  ps1 : string;
  ps2 : string
}.

(** The source builds [inputs.DirectInputStrategy()] without arguments;
    [text] stands for the string that is already available to it. *)
Definition _get_input_strategy (_args : CliArgsNamespaceDemo)
    (text : string) : inputs.InputStrategy :=
  if negb (interactive _args) then
    inputs.Direct (inputs.DirectInputStrategy.__init__ text)
  else
    let ps1 := ps1 _args in
    let ps2 := ps2 _args in
    if one_line _args
    then inputs.Oneline (inputs.OnelineInputStrategy.__init__ (Some ps1))
    else inputs.Multiple (inputs.MultipleInputStrategy.__init__ ps1 ps2).

End CliCommandsDemo.

(** ** [saniprocli/cli_runner.py] *)

Module cli_runner.

(** What one call of [self._input_strategy.input()] does, as the runners
    distinguish it: a string, [EOFError], [KeyboardInterrupt], or another
    [Exception] with its message. *)
Inductive answer : Type :=
  | Gives (s : string)
  | EndOfInput
  | Interrupted
  | Fails (msg : string).

(** One pass through the body of the [while True] of [_handle_input]:
    return, raise the new [EOFError], or go round again after the given
    writes and log lines. *)
Inductive handled : Type :=
  | Return (prompt_input : string)
  | RaiseEOFError (msg : string)
  | Again (written logged : list string).

Definition _handle_input_once (a : answer) : handled :=
  match a with
  | Gives prompt_input =>
      if truthy prompt_input then Return prompt_input else Again [] []
  | EndOfInput =>
      RaiseEOFError "EOF received. Going back to previous state."
  | Interrupted =>
      Again [String "010" "KeyboardInterrupt" +:+ String "010" ""] []
  | Fails msg =>
      Again [] ["error: " +:+ msg]
  end.

Module RunnerInteractiveMultiple.

(** The local variables of [_start_loop], the module global
    [color.color_foreground], and what the run has done so far: the
    strings given to [self._write], the lines given to [logger.fatal] and
    the argument pairs of the calls of [_execute_multi]. *)
Record Session : Type := {
  state : Z;
  first : string;
  second : string;
  _color : string;
  color_foreground : string;
  written : list string;
  logged : list string;
  executed : list (string * string)
}.

(** Where control is between two answers of the input strategy. *)
Inductive control : Type :=
  | InHandleInput          (* blocked in [self._input_strategy.input()] *)
  | Returned               (* [_start_loop] has returned *)
  | Propagated (e : exn)   (* an exception left [_start_loop] *)
  | Spinning.              (* inner loop with a state it has no branch for *)

Definition Config : Type := (control * Session)%type.

Section Loop.

(** The abstract method [_execute_multi_inner]. *)
Variable _execute_multi_inner : string -> string -> result string.

Definition _execute_multi (first second : string) : result string :=
  _execute_multi_inner first second.

(** The first four statements of the body of the outer loop. *)
Definition outer_enter (s : Session) : Session :=
  {| state := 0; first := ""; second := "";
     _color := color_foreground s;
     color_foreground := color_foreground s;
     written := written s; logged := logged s; executed := executed s |}.

(** Leaving the outer loop through [except EOFError: break], then the
    final write. *)
Definition outer_break (s : Session) : Config :=
  (Returned,
   {| state := state s; first := first s; second := second s;
      _color := _color s; color_foreground := color_foreground s;
      written := written s ++ [String "010" ""];
      logged := logged s; executed := executed s |}).

(** An exception reaching the [try] of the outer loop. *)
Definition outer_except (e : exn) (s : Session) : Config :=
  match e with
  | EOFError _ => outer_break s
  | _ => (Propagated e, s)
  end.

(** The inner loop from the top of its body up to the next call of
    [_handle_input].  The branch for 20 runs the callback, leaves the
    inner loop and starts the next round of the outer one, whose inner
    loop then waits in the branch for 0. *)
Definition inner_loop (s : Session) : Config :=
  if state s =? 0 then (InHandleInput, s)
  else if state s =? 10 then
    (InHandleInput,
     {| state := state s; first := first s; second := second s;
        _color := _color s; color_foreground := "green";
        written := written s; logged := logged s;
        executed := executed s |})
  else if state s =? 20 then
    let called := executed s ++ [(first s, second s)] in
    match _execute_multi (first s) (second s) with
    | Ok out =>
        (InHandleInput,
         outer_enter
           {| state := state s; first := first s; second := second s;
              _color := _color s; color_foreground := _color s;
              written := written s ++ [out +:+ String "010" ""];
              logged := logged s; executed := called |})
    | Raise e =>
        outer_except e
          {| state := state s; first := first s; second := second s;
             _color := _color s; color_foreground := color_foreground s;
             written := written s; logged := logged s;
             executed := called |}
    end
  else (Spinning, s).

(** [_handle_input] was called from the branch of [state s] and the
    input strategy has just answered [a]. *)
Definition on_answer (s : Session) (a : answer) : Config :=
  match _handle_input_once a with
  | Again w l =>
      (InHandleInput,
       {| state := state s; first := first s; second := second s;
          _color := _color s; color_foreground := color_foreground s;
          written := written s ++ w; logged := logged s ++ l;
          executed := executed s |})
  | Return x =>
      if state s =? 0 then
        inner_loop
          {| state := if truthy x then 10 else state s;
             first := x; second := second s;
             _color := _color s; color_foreground := color_foreground s;
             written := written s; logged := logged s;
             executed := executed s |}
      else if state s =? 10 then
        inner_loop
          {| state := if truthy x then 20 else state s;
             first := first s; second := x;
             _color := _color s; color_foreground := color_foreground s;
             written := written s; logged := logged s;
             executed := executed s |}
      else (Spinning, s)
  | RaiseEOFError msg =>
      if state s =? 0 then
        (* except EOFError: raise *)
        outer_except (EOFError msg) s
      else if state s =? 10 then
        (* except EOFError: reset the state, restore the colour, continue *)
        inner_loop
          {| state := 0; first := first s; second := second s;
             _color := _color s; color_foreground := _color s;
             written := written s; logged := logged s;
             executed := executed s |}
      else (Spinning, s)
  end.

Definition step (c : Config) (a : answer) : Config :=
  match c with
  | (InHandleInput, s) => on_answer s a
  | _ => c
  end.

(** [_start_loop] up to its first call of the input strategy;
    [foreground] is the value of [color.color_foreground] at that
    moment. *)
Definition _start_loop (foreground : string) : Config :=
  inner_loop
    (outer_enter
       {| state := 0; first := ""; second := ""; _color := foreground;
          color_foreground := foreground;
          written := []; logged := []; executed := [] |}).

(** The loop fed with the successive answers of the input strategy. *)
Definition run (c : Config) (answers : list answer) : Config :=
  fold_left step answers c.

End Loop.

End RunnerInteractiveMultiple.

Module RunnerNonInteractiveSingle.

(** What one call of [_run_once] did: the arguments of the calls of
    [_execute_single], what was given to [self._write] (which is
    [print]) and to [sys.stderr.write], and the exception that leaves
    the method, if any. *)
Record Outcome : Type := {
  executed : list string;
  written : list string;
  stderr : list string;
  raised : option exn
}.

Section Once.

(** The abstract method [_execute_single_inner]. *)
Variable _execute_single_inner : string -> result string.

Definition _execute_single (source : string) : result string :=
  _execute_single_inner source.

(** The [finally] clause; [pending] is the exception in flight when it
    is entered.  An exception raised inside replaces it. *)
Definition finally (sentence : string) (err : list string)
    (pending : option exn) : Outcome :=
  match _execute_single sentence with
  | Ok out =>
      {| executed := [sentence]; written := [out]; stderr := err;
         raised := pending |}
  | Raise e =>
      {| executed := [sentence]; written := []; stderr := err;
         raised := Some e |}
  end.

(** [_run_once], given what [self._input_strategy.input()] did. *)
Definition _run_once (a : answer) : Outcome :=
  let sentence := "" in
  match a with
  | Gives s =>
      let sentence := strip s in
      finally sentence [] None
  | Interrupted | EndOfInput =>
      (* sys.stderr.write, then sys.exit(1) *)
      finally sentence [String "010" ""] (Some (SystemExit 1))
  | Fails msg =>
      finally sentence [] (Some (OtherException msg))
  end.

Definition run (a : answer) : Outcome := _run_once a.

End Once.

(** The status the interpreter exits with once [run] is over: the code
    of a [SystemExit], 130 for an unhandled [KeyboardInterrupt], 1 for
    any other unhandled exception, 0 otherwise. *)
Definition exit_status (o : Outcome) : Z :=
  match raised o with
  | None => 0
  | Some (SystemExit code) => code
  | Some KeyboardInterrupt => 130
  | Some _ => 1
  end.

End RunnerNonInteractiveSingle.

End cli_runner.

(** ** [RunnerInteractiveSingle._start_loop] of [saniprocli/cli_runner.py] *)

Module RunnerInteractiveSingle.

(** What the run has done so far: the strings given to [self._write],
    the lines given to [logger.fatal] and the arguments of the calls of
    [_execute_single]. *)
Record Session : Type := {
  written : list string;
  logged : list string;
  executed : list string
}.

(** Where control is between two calls of the input strategy. *)
Inductive control : Type :=
  | InInput                (* blocked in [self._input_strategy.input()] *)
  | Returned               (* [_start_loop] has returned *)
  | Propagated (e : exn).  (* an exception left [_start_loop] *)

Definition Config : Type := (control * Session)%type.

Section Loop.

(** The abstract method [_execute_single_inner]. *)
Variable _execute_single_inner : string -> result string.

Definition _execute_single (source : string) : result string :=
  _execute_single_inner source.

(** An exception raised in the body of the inner [try]: [EOFError] leaves
    the loop, after which the final newline is written; the outer [try]
    logs a [ValueError] and writes a notice for a [KeyboardInterrupt], and
    the loop goes on; anything else leaves the method. *)
Definition on_exception (e : exn) (s : Session) : Config :=
  match e with
  | EOFError _ =>
      (Returned,
       {| written := written s ++ [String "010" ""];
          logged := logged s; executed := executed s |})
  | ValueError msg =>
      (InInput,
       {| written := written s; logged := logged s ++ ["error: " +:+ msg];
          executed := executed s |})
  | KeyboardInterrupt =>
      (InInput,
       {| written :=
            written s ++ [String "010" "KeyboardInterrupt" +:+ String "010" ""];
          logged := logged s; executed := executed s |})
  | _ => (Propagated e, s)
  end.

(** One round of the [while True], given what
    [self._input_strategy.input()] did. *)
Definition iteration (s : Session) (r : result string) : Config :=
  match r with
  | Ok prompt_input =>
      if truthy prompt_input then
        let called := executed s ++ [prompt_input] in
        match _execute_single prompt_input with
        | Ok out =>
            (InInput,
             {| written := written s ++ [out +:+ String "010" ""];
                logged := logged s; executed := called |})
        | Raise e =>
            on_exception e
              {| written := written s; logged := logged s;
                 executed := called |}
        end
      else (InInput, s)
  | Raise e => on_exception e s
  end.

Definition step (c : Config) (r : result string) : Config :=
  match c with
  | (InInput, s) => iteration s r
  | _ => c
  end.

(** [_start_loop] up to its first call of the input strategy. *)
Definition _start_loop : Config :=
  (InInput, {| written := []; logged := []; executed := [] |}).

(** The loop fed with the successive outcomes of the input strategy. *)
Definition run (c : Config) (answers : list (result string)) : Config :=
  fold_left step answers c.

End Loop.

End RunnerInteractiveSingle.

(** ** The formatter selection of [CliCommandsDemo.to_runner] *)

Module ToRunner.

(** The local dictionary [fmt_mapping]; [Escaper_escape] is the function
    of the other package that [Formatter.to_a1111_compat] calls. *)
Definition fmt_mapping (Escaper_escape : string -> string)
  : gmap string (string -> string) :=
  <["csv" := tfind.Formatter.to_csv]>
    (<["a1111" := tfind.Formatter.to_a1111]>
       (<["a1111compat" := tfind.Formatter.to_a1111_compat Escaper_escape]> ∅)).

(** [formatter = fmt_mapping[self._args.formatter]], with the [KeyError]
    of a missing key raised again as a [KeyError] whose first argument is
    the unformatted message. *)
Definition select_formatter (Escaper_escape : string -> string)
    (formatter : string) : result (string -> string) :=
  match fmt_mapping Escaper_escape !! formatter with
  | Some f => Ok f
  | None => Raise (KeyError "no formatter applicable: %s")
  end.

End ToRunner.

(** ** Notions used to state the properties *)

Import tfind inputs cli_runner.

(** The number of characters of [s] that satisfy [p]. *)
Fixpoint count_char (p : ascii -> bool) (s : string) : nat :=
  match s with
  | EmptyString => O
  | String c rest => (if p c then 1 else 0) + count_char p rest
  end.

Definition is_backslash (c : ascii) : bool := Ascii.eqb c "\".

(** The two parenthesis characters, by their code points: 40 is the
    opening and 41 the closing parenthesis. *)
Definition is_parenthesis (c : ascii) : bool :=
  let n := N_of_ascii c in
  (n =? 40)%N || (n =? 41)%N.

(** Every parenthesis of [s] stands directly after a backslash. *)
Definition parentheses_escaped (s : string) : Prop :=
  forall (i : nat) (c : ascii),
    String.get i s = Some c -> is_parenthesis c = true ->
    exists j : nat, i = S j /\ String.get j s = Some "\"%char.

(** The finder of the concrete scenario of the specification. *)
Definition scenario_finder : TokenFinder :=
  {| _delimiter :=
       {| sep_input := ","; sep_output := " | "; sep_field := Some ":" |};
     _formatter := Formatter.to_csv |}.

(** The non-interactive runner of the scenario, with an empty table. *)
Definition scenario_runner : RunnerTagFindNonInteractive.t :=
  {| RunnerTagFindNonInteractive._app := scenario_finder;
     RunnerTagFindNonInteractive.tags_n_count := ∅ |}.

(** The record that [execute] emits for a token that is not blank. *)
Definition record_of (self : TokenFinder) (field_d : string)
    (kvstore : gmap string string) (token : string) : string :=
  let new_token := strip token in
  _formatter self new_token +:+ field_d +:+ default "NULL" (kvstore !! new_token).

(** [n] successive calls of [MultipleInputStrategy.input] without an
    argument. *)
Fixpoint calls_without_argument (n : nat) (self : MultipleInputStrategy.t)
    (c : Console) : MultipleInputStrategy.t * Console :=
  match n with
  | O => (self, c)
  | S n' =>
      let '(_, self, c) := MultipleInputStrategy.input self None c in
      calls_without_argument n' self c
  end.

(** The field that a 1-based index selects from the columns of a row, as
    the table stores it: field 1 stripped and with underscores turned
    into spaces, any other field as the split left it. *)
Definition table_field (columns : list string) (idx : Z) : result string :=
  if idx =? 1 then
    c0 ← getitem columns 0;
    Ok (CsvUtils.replace_underscore c0)
  else getitem columns (idx - 1).

Definition table_entry (delim line : string) (key_idx value_idx : Z)
  : result (string * string) :=
  columns ← split (strip line) delim;
  key ← table_field columns key_idx;
  val ← table_field columns value_idx;
  Ok (key, val).

Fixpoint table_of_entries (delim : string) (key_idx value_idx : Z)
    (lines : list string) (acc : gmap string string)
  : result (gmap string string) :=
  match lines with
  | [] => Ok acc
  | line :: rest =>
      entry ← table_entry delim line key_idx value_idx;
      table_of_entries delim key_idx value_idx rest (<[entry.1 := entry.2]> acc)
  end.

Module DualInput.

Import RunnerInteractiveMultiple.

(** The two places where the loop waits for input (AWAITING_FIRST and
    AWAITING_SECOND of the specification), and the loop being over. *)
Definition awaiting_first (c : Config) : Prop :=
  c.1 = InHandleInput /\ state c.2 = 0.

Definition awaiting_second (c : Config) : Prop :=
  c.1 = InHandleInput /\ state c.2 = 10.

Definition terminated (c : Config) : Prop := c.1 <> InHandleInput.

(** What can be seen of a configuration from outside: everything but
    the two stored prompts. *)
Definition observable (c : Config)
  : control * Z * string * string * list string * list string
    * list (string * string) :=
  (c.1, state c.2, _color c.2, color_foreground c.2,
   written c.2, logged c.2, executed c.2).

(** The configuration of a loop that starts a new pair with the
    history of [s]. *)
Definition fresh_pair (foreground : string) (s : Session) : Config :=
  (InHandleInput,
   {| state := 0; first := ""; second := ""; _color := foreground;
      color_foreground := foreground; written := written s;
      logged := logged s; executed := executed s |}).

(** What holds whenever the loop waits for input. *)
Definition consistent (foreground : string) (c : Config) : Prop :=
  c.1 = InHandleInput ->
  _color c.2 = foreground
  /\ ((state c.2 = 0 /\ color_foreground c.2 = foreground)
      \/ (state c.2 = 10 /\ color_foreground c.2 = "green")).

(** Two sessions that differ at most in stored prompts that will be
    overwritten before they are read. *)
Definition alike (s1 s2 : Session) : Prop :=
  state s1 = state s2 /\ _color s1 = _color s2
  /\ color_foreground s1 = color_foreground s2
  /\ written s1 = written s2 /\ logged s1 = logged s2
  /\ executed s1 = executed s2
  /\ (state s1 = 10 -> first s1 = first s2).

End DualInput.

(** The characters of a string. *)
Fixpoint chars (s : string) : list ascii :=
  match s with
  | EmptyString => []
  | String c rest => c :: chars rest
  end.

Definition is_underscore (c : ascii) : bool := Ascii.eqb c "_".

(** The escaped form of a sequence of characters: a backslash is put
    before every parenthesis, and nothing else is changed. *)
Definition escaped_chars (cs : list ascii) : list ascii :=
  concat ((fun c => if is_parenthesis c then ["\"%char; c] else [c]) <$> cs).

(** The number of fields of a line of the table file once it is stripped
    and split. *)
Definition field_count (delim line : string) : Z :=
  match split (strip line) delim with
  | Ok columns => Z.of_nat (length columns)
  | Raise _ => 0
  end.

(** The line has a field for both indices. *)
Definition enough_fields (delim : string) (key_idx value_idx : Z)
    (line : string) : bool :=
  Z.max key_idx value_idx <=? field_count delim line.

(** The prompt that the first read of a call of
    [MultipleInputStrategy.input] shows, and the label of the further
    reads of that call. *)
Definition first_prompt (self : MultipleInputStrategy.t)
    (prompt : option string) : option string :=
  match prompt with
  | Some _ => None
  | None => Some (MultipleInputStrategy.ps1 self)
  end.

Definition continuation_label (self : MultipleInputStrategy.t)
    (prompt : option string) : string :=
  match prompt with
  | Some p => p
  | None => MultipleInputStrategy.ps2 self
  end.

(** The answers of the input strategy that make [_handle_input] go round
    again. *)
Definition retried (a : answer) : bool :=
  match a with
  | Gives s => negb (truthy s)
  | EndOfInput => false
  | Interrupted | Fails _ => true
  end.

(** The exceptions that the single-input loop recovers from. *)
Definition recovered (e : exn) : bool :=
  match e with
  | ValueError _ | KeyboardInterrupt => true
  | _ => false
  end.

(** The exception that one round of the single-input loop has to deal
    with, if any: the one of the read, or the one of the callback on a
    non-empty input. *)
Definition round_exception (callback : string -> result string)
    (r : result string) : option exn :=
  match r with
  | Raise e => Some e
  | Ok s =>
      if truthy s then
        match callback s with
        | Raise e => Some e
        | Ok _ => None
        end
      else None
  end.

(** What holds of the dual-input loop after any answers: it is never in
    a state without a branch, the callback has only seen pairs of
    non-empty prompts, and while it waits the state is 0 with the
    original colour, or 10 with the colour green and a non-empty first
    prompt stored. *)
Definition well_formed (foreground : string)
    (c : RunnerInteractiveMultiple.Config) : Prop :=
  c.1 <> RunnerInteractiveMultiple.Spinning
  /\ Forall (fun p : string * string => truthy p.1 = true /\ truthy p.2 = true)
       (RunnerInteractiveMultiple.executed c.2)
  /\ (c.1 = RunnerInteractiveMultiple.InHandleInput ->
      RunnerInteractiveMultiple._color c.2 = foreground
      /\ ((RunnerInteractiveMultiple.state c.2 = 0
           /\ RunnerInteractiveMultiple.color_foreground c.2 = foreground)
          \/ (RunnerInteractiveMultiple.state c.2 = 10
              /\ RunnerInteractiveMultiple.color_foreground c.2 = "green"
              /\ truthy (RunnerInteractiveMultiple.first c.2) = true))).

(** The writes and the log line that an answer causes when
    [_handle_input] goes round again. *)
Definition retry_written (a : answer) : list string :=
  match a with
  | Interrupted => [String "010" "KeyboardInterrupt" +:+ String "010" ""]
  | _ => []
  end.

Definition retry_logged (a : answer) : list string :=
  match a with
  | Fails msg => ["error: " +:+ msg]
  | _ => []
  end.

(** * Properties *)

(** ** Tag table and token finder *)

(** C1: the rows "cat,10" and "dog,5" split on "," with key field 1 and
    value field 2 give the table cat -> 10, dog -> 5, and looking up
    "cat, dog, fox" in it with separators ",", ":" and " | " and the csv
    formatter gives "cat:10 | dog:5 | fox:NULL". *)
Theorem concrete_scenario :
  CsvUtils.create_dict_from_io ["cat,10"; "dog,5"] "," 1 2
    = Ok {[ "cat" := "10"; "dog" := "5" ]}
  /\ execute scenario_finder "cat, dog, fox" {[ "cat" := "10"; "dog" := "5" ]}
    = Ok "cat:10 | dog:5 | fox:NULL".
Proof.
  split.
  - vm_compute. reflexivity.
  - vm_compute. reflexivity.
Qed.

Lemma execute_loop_stops self field_d kv before blank after :
  Forall (fun t => truthy (strip t) = true) before ->
  strip blank = "" ->
  execute_loop self field_d kv (before ++ blank :: after)
    = record_of self field_d kv <$> before.
Proof.
  intros Hbefore Hblank.
  induction Hbefore as [|t before Ht _ IH]; simpl.
  - rewrite Hblank. reflexivity.
  - rewrite Ht. simpl. rewrite IH. reflexivity.
Qed.

(** C3: a token that is blank after stripping ends the processing of the
    prompt: the output consists of the records of the tokens before it
    and nothing of what follows.  With input separator "," the prompt
    "a, ,b" gives the record of "a" alone. *)
Theorem early_termination_on_empty_token :
  (forall self prompt kv field_d before blank after,
     sep_field (_delimiter self) = Some field_d ->
     split prompt (sep_input (_delimiter self))
       = Ok (before ++ blank :: after) ->
     Forall (fun t => truthy (strip t) = true) before ->
     strip blank = "" ->
     execute self prompt kv
       = Ok (join (sep_output (_delimiter self))
               (record_of self field_d kv <$> before)))
  /\ (forall self kv field_d,
        sep_field (_delimiter self) = Some field_d ->
        sep_input (_delimiter self) = "," ->
        execute self "a, ,b" kv
          = Ok (_formatter self "a" +:+ field_d +:+ default "NULL" (kv !! "a"))).
Proof.
  split.
  - intros self prompt kv field_d before blank after Hf Hsplit Hbefore Hblank.
    unfold execute. rewrite Hf, Hsplit. simpl.
    rewrite execute_loop_stops by assumption. reflexivity.
  - intros self kv field_d Hf Hin.
    unfold execute. rewrite Hf, Hin. reflexivity.
Qed.

Lemma early_termination_on_empty_token_witness :
  execute scenario_finder "a, ,b" (<["b" := "7"]> ∅) = Ok "a:NULL"
  /\ execute scenario_finder "a, ,b" (<["a" := "3"]> ∅) = Ok "a:3".
Proof.
  split.
  - refine (proj1 early_termination_on_empty_token
              scenario_finder "a, ,b" (<["b" := "7"]> ∅) ":" ["a"] " " ["b"]
              eq_refl eq_refl _ eq_refl).
    repeat constructor.
  - exact (proj2 early_termination_on_empty_token
             scenario_finder (<["a" := "3"]> ∅) ":" eq_refl eq_refl).
Defined.

(** C6, as the code has it: [execute] fails with the [ValueError] of its
    guard whenever the field separator is [None], so it returns only if
    the field separator is set; an empty field separator is accepted and
    joins token and count with nothing between them. *)
Theorem field_separator_precondition :
  forall self prompt kv,
    (sep_field (_delimiter self) = None ->
     execute self prompt kv = Raise (ValueError "field delimiter is None"))
    /\ (returns (execute self prompt kv) = true ->
        sep_field (_delimiter self) <> None)
    /\ (sep_field (_delimiter self) = Some "" ->
        forall tokens,
          split prompt (sep_input (_delimiter self)) = Ok tokens ->
          execute self prompt kv
            = Ok (join (sep_output (_delimiter self))
                    (execute_loop self "" kv tokens))).
Proof.
  intros self prompt kv. unfold execute. repeat split.
  - intros ->. reflexivity.
  - destruct (sep_field (_delimiter self)); [discriminate | intros H; discriminate H].
  - intros -> tokens ->. reflexivity.
Qed.

Lemma field_separator_precondition_witness :
  execute
    {| _delimiter := {| sep_input := ","; sep_output := ", "; sep_field := None |};
       _formatter := Formatter.to_csv |} "cat" ∅
  = Raise (ValueError "field delimiter is None").
Proof.
  apply (proj1 (field_separator_precondition _ "cat" ∅)). reflexivity.
Defined.

(** C6 as stated fails: with the empty string as field separator the
    lookup of "a" returns "aNULL" instead of failing. *)
Lemma empty_field_separator_accepted :
  execute
    {| _delimiter := {| sep_input := ","; sep_output := ", "; sep_field := Some "" |};
       _formatter := Formatter.to_csv |} "a" ∅
  = Ok "aNULL"
  /\ ~ (forall self prompt kv,
          sep_field (_delimiter self) = None
          \/ sep_field (_delimiter self) = Some "" ->
          returns (execute self prompt kv) = false).
Proof.
  split; [reflexivity |].
  intros H.
  specialize (H {| _delimiter :=
                    {| sep_input := ","; sep_output := ", "; sep_field := Some "" |};
                   _formatter := Formatter.to_csv |} "a" ∅ (or_intror eq_refl)).
  discriminate H.
Qed.

(** When [execute] returns at all: the field separator is set and the
    input separator is not empty. *)
Lemma execute_returns_iff self prompt kv :
  returns (execute self prompt kv) = true
  <-> sep_field (_delimiter self) <> None /\ sep_input (_delimiter self) <> "".
Proof.
  unfold execute, split.
  destruct (sep_field (_delimiter self)) as [f|]; simpl.
  - destruct (sep_input (_delimiter self)) as [|c d]; simpl.
    + split; [discriminate | intros [_ H]; congruence].
    + destruct (split_scan _ _ _). simpl. split; [intros _; split; congruence | reflexivity].
  - split; [discriminate | intros [H _]; congruence].
Qed.

Lemma parentheses_class (c : ascii) :
  TFindEscaper.parentheses c = is_parenthesis c.
Proof. destruct c as [[] [] [] [] [] [] [] []]; reflexivity. Qed.

Lemma count_char_ext (p q : ascii -> bool) (s : string) :
  (forall c, p c = q c) -> count_char p s = count_char q s.
Proof.
  intros Hpq. induction s as [|c s IH]; [reflexivity |].
  simpl. now rewrite Hpq, IH.
Qed.

Lemma escape_parentheses_chars (t : string) :
  chars (TFindEscaper.escape_parentheses t) = escaped_chars (chars t).
Proof.
  unfold escaped_chars. induction t as [|c t IH]; [reflexivity |].
  simpl. rewrite parentheses_class.
  destruct (is_parenthesis c); simpl; now rewrite IH.
Qed.

(** C8: in the output of [Formatter.to_a1111], which is that of
    [TFindEscaper.escape_parentheses], every character "(" or ")" stands
    directly after a backslash; the output has exactly one backslash more
    than the token for each "(" or ")" of the token, it is longer by that
    number, it has the same parentheses, and it is the token with a
    backslash put before each of them and nothing else changed. *)
Theorem parenthesis_escaping_bound :
  forall t : string,
    Formatter.to_a1111 t = TFindEscaper.escape_parentheses t
    /\ parentheses_escaped (Formatter.to_a1111 t)
    /\ count_char is_backslash (Formatter.to_a1111 t)
       = (count_char is_backslash t + count_char is_parenthesis t)%nat
    /\ String.length (Formatter.to_a1111 t)
       = (String.length t + count_char is_parenthesis t)%nat
    /\ count_char is_parenthesis (Formatter.to_a1111 t)
       = count_char is_parenthesis t
    /\ chars (Formatter.to_a1111 t) = escaped_chars (chars t).
Proof.
  intros t. split; [reflexivity |]. unfold Formatter.to_a1111.
  split; [| split; [| split; [| split]]].
  - induction t as [|c rest IH].
    + intros i ch Hget _. destruct i; discriminate Hget.
    + simpl. rewrite parentheses_class.
      destruct (is_parenthesis c) eqn:Hc; intros i ch Hget Hparen.
      * destruct i as [|[|k]]; simpl in Hget.
        -- injection Hget as <-. discriminate Hparen.
        -- exists O. split; reflexivity.
        -- destruct (IH k ch Hget Hparen) as [j [-> Hj]].
           exists (S (S j)). split; [reflexivity | exact Hj].
      * destruct i as [|k]; simpl in Hget.
        -- injection Hget as <-. congruence.
        -- destruct (IH k ch Hget Hparen) as [j [-> Hj]].
           exists (S j). split; [reflexivity | exact Hj].
  - induction t as [|c rest IH]; [reflexivity |].
    simpl. rewrite parentheses_class.
    destruct (is_parenthesis c) eqn:Hc; simpl; rewrite IH.
    + assert (is_backslash c = false) as ->.
      { destruct c as [[] [] [] [] [] [] [] []];
          try discriminate Hc; reflexivity. }
      simpl. lia.
    + destruct (is_backslash c); simpl; lia.
  - induction t as [|c rest IH]; [reflexivity |].
    simpl. rewrite parentheses_class.
    destruct (is_parenthesis c); simpl; rewrite IH; lia.
  - induction t as [|c rest IH]; [reflexivity |].
    simpl. rewrite parentheses_class.
    destruct (is_parenthesis c) eqn:Hc; simpl; rewrite ?Hc, IH; reflexivity.
  - apply escape_parentheses_chars.
Qed.

(** ** Input strategies *)

Lemma append_empty_r (s : string) : s +:+ "" = s.
Proof.
  induction s as [|c s IH]; [reflexivity |].
  change (String c (s +:+ "") = String c s). now rewrite IH.
Qed.

Lemma join_no_separator (xs : list string) :
  join "" xs = foldr String.append "" xs.
Proof.
  induction xs as [|x [|y rest] IH].
  - reflexivity.
  - symmetry. apply append_empty_r.
  - change (join "" (x :: y :: rest)) with (x +:+ "" +:+ join "" (y :: rest)).
    rewrite IH. reflexivity.
Qed.

Section ReadLoop.

Import MultipleInputStrategy.

(** Lines followed by end of file: the loop buffers all of them and then
    takes the [except EOFError] branch. *)
Lemma read_loop_lines lines : forall ps2 _prompt buffer rest shown out,
  read_loop ps2 _prompt buffer ((Line <$> lines) ++ Eof :: rest) shown out
  = on_eof (buffer ++ lines) rest
      (shown ++ _prompt :: replicate (length lines) (Some ps2)) out.
Proof.
  induction lines as [|l lines IH]; intros ps2 _prompt buffer rest shown out.
  - simpl. now rewrite app_nil_r.
  - simpl. rewrite IH. now rewrite <- !app_assoc.
Qed.

(** The prompts of one run of the loop: [_prompt] first, then the
    continuation label for every further call of the builtin. *)
Lemma read_loop_prompted tty : forall ps2 _prompt buffer shown out,
  exists k : nat,
    prompted (read_loop ps2 _prompt buffer tty shown out).2
    = shown ++ _prompt :: replicate k (Some ps2).
Proof.
  induction tty as [|ev tty IH]; intros ps2 _prompt buffer shown out.
  - exists O. simpl. destruct buffer; reflexivity.
  - destruct ev as [line| |]; simpl.
    + destruct (IH ps2 (Some ps2) (buffer ++ [line]) (shown ++ [_prompt]) out)
        as [k Hk].
      exists (S k). rewrite Hk. now rewrite <- app_assoc.
    + exists O. destruct buffer; reflexivity.
    + exists O. reflexivity.
Qed.

End ReadLoop.

(** C4: fed any lines followed by end of file, [MultipleInputStrategy.input]
    consumes them all, and returns their concatenation with nothing
    between them when there is at least one line; it raises [EOFError]
    exactly when there is none.  Lines "foo" and "bar" give "foobar". *)
Theorem multiline_submission :
  (forall self prompt lines rest shown out,
     let c := {| stdin := (Line <$> lines) ++ Eof :: rest;
                 prompted := shown; stdout := out |} in
     let r := (MultipleInputStrategy.input self prompt c).1.1 in
     let c' := (MultipleInputStrategy.input self prompt c).2 in
     stdin c' = rest
     /\ r = match lines with
            | [] => Raise (EOFError "EOF when reading a line")
            | _ :: _ => Ok (foldr String.append "" lines)
            end
     /\ ((exists msg, r = Raise (EOFError msg)) <-> lines = []))
  /\ (MultipleInputStrategy.input
        (MultipleInputStrategy.__init__ ">>> " "... ") None
        {| stdin := [Line "foo"; Line "bar"; Eof];
           prompted := []; stdout := [] |}).1.1 = Ok "foobar".
Proof.
  split; [| reflexivity].
  intros self prompt lines rest shown out c r c'.
  assert (Hrun : exists self' shown',
             MultipleInputStrategy.input self prompt c
             = (let '(r, c) := MultipleInputStrategy.on_eof lines rest shown' out
                in (r, self', c))).
  { unfold MultipleInputStrategy.input, c. simpl.
    destruct prompt as [p|]; simpl; rewrite read_loop_lines; simpl;
      eexists _, _; reflexivity. }
  destruct Hrun as (self' & shown' & Hrun).
  subst r c'. rewrite Hrun. clear Hrun.
  destruct lines as [|l lines].
  - simpl. split; [reflexivity |]. split; [reflexivity |].
    split; [reflexivity | intros _; eexists; reflexivity].
  - rewrite <- join_no_separator. cbn -[join].
    split; [reflexivity |]. split; [reflexivity |].
    split; [intros [msg Hmsg]; discriminate Hmsg | discriminate].
Qed.

(** C9: a call of [MultipleInputStrategy.input] with an explicit prompt
    leaves both labels equal to that prompt, whatever they were and
    whatever the terminal answers; a call without argument leaves both
    labels as they are; so after any number of later calls without
    argument the labels are still the overwriting prompt, and it is the
    only prompt those calls have shown. *)
Theorem explicit_prompt_overwrites_labels :
  forall self p c,
    let self' := (MultipleInputStrategy.input self (Some p) c).1.2 in
    MultipleInputStrategy.ps1 self' = p
    /\ MultipleInputStrategy.ps2 self' = p
    /\ (forall n c2,
          (calls_without_argument n self' c2).1 = self'
          /\ exists k : nat,
               (n <= k)%nat
               /\ prompted (calls_without_argument n self' c2).2
                  = prompted c2 ++ replicate k (Some p))
    /\ (forall other c2,
          (MultipleInputStrategy.input other None c2).1.2 = other).
Proof.
  intros self p c self'.
  assert (Hself' : self' = {| MultipleInputStrategy.ps1 := p;
                              MultipleInputStrategy.ps2 := p |}).
  { subst self'. unfold MultipleInputStrategy.input. simpl.
    destruct (MultipleInputStrategy.read_loop _ _ _ _ _ _). reflexivity. }
  assert (Hnone : forall other c2,
             (MultipleInputStrategy.input other None c2).1.2 = other).
  { intros other c2. unfold MultipleInputStrategy.input. simpl.
    destruct (MultipleInputStrategy.read_loop _ _ _ _ _ _). reflexivity. }
  rewrite Hself'. clear Hself' self'.
  split; [reflexivity |]. split; [reflexivity |]. split; [| exact Hnone].
  induction n as [|n IH]; intros c2.
  - split; [reflexivity |].
    exists O. simpl. split; [lia | now rewrite app_nil_r].
  - simpl.
    pose proof (Hnone {| MultipleInputStrategy.ps1 := p;
                         MultipleInputStrategy.ps2 := p |} c2) as Hs.
    assert (Hp : exists k, prompted (MultipleInputStrategy.input
                   {| MultipleInputStrategy.ps1 := p;
                      MultipleInputStrategy.ps2 := p |} None c2).2
                 = prompted c2 ++ Some p :: replicate k (Some p)).
    { unfold MultipleInputStrategy.input. simpl.
      destruct (read_loop_prompted (stdin c2) p (Some p) [] (prompted c2)
                  (stdout c2)) as [k Hk].
      exists k. destruct (MultipleInputStrategy.read_loop _ _ _ _ _ _).
      exact Hk. }
    destruct (MultipleInputStrategy.input _ None c2) as [[r s] c3].
    simpl in Hs, Hp. subst s. destruct Hp as [k Hk].
    destruct (IH c3) as [Hsame [k' [Hle Hk']]].
    split; [exact Hsame |].
    exists (S k + k')%nat. split; [lia |].
    rewrite Hk', Hk. rewrite <- app_assoc. simpl.
    now rewrite replicate_add.
Qed.

(** C7: when the session is not interactive, [_get_input_strategy] gives
    the direct strategy around the available string; its first [input]
    returns that string and the next one fails with [EOFError]. *)
Theorem direct_input_strategy :
  forall _args text c,
    CliCommandsDemo.interactive _args = false ->
    let strategy := CliCommandsDemo._get_input_strategy _args text in
    let once := input strategy None c in
    let twice := input once.1.2 None once.2 in
    strategy = Direct (DirectInputStrategy.__init__ text)
    /\ once.1.1 = Ok text
    /\ exists msg, twice.1.1 = Raise (EOFError msg).
Proof.
  intros _args text c Hni. unfold CliCommandsDemo._get_input_strategy.
  rewrite Hni. simpl. split; [reflexivity |]. split; [reflexivity |].
  eexists. reflexivity.
Qed.

Lemma direct_input_strategy_witness :
  let _args := {| CliCommandsDemo.interactive := false;
                  CliCommandsDemo.one_line := false;
                  CliCommandsDemo.ps1 := ">>> ";
                  CliCommandsDemo.ps2 := "... " |} in
  let c := {| stdin := []; prompted := []; stdout := [] |} in
  let once := input (CliCommandsDemo._get_input_strategy _args "1girl, solo") None c in
  once.1.1 = Ok "1girl, solo"
  /\ exists msg, (input once.1.2 None once.2).1.1 = Raise (EOFError msg).
Proof.
  intros _args c once.
  exact (proj2 (direct_input_strategy _args "1girl, solo" c eq_refl)).
Defined.

(** ** Table construction in the tag lookup *)

Lemma split_nonempty s sep columns :
  split s sep = Ok columns -> exists c0 rest, columns = c0 :: rest.
Proof.
  unfold split. destruct sep; [discriminate |].
  destruct (split_scan _ _ _) as [f fs]. intros [= <-]. eauto.
Qed.

Lemma getitem_tail {A} (x y : A) (xs : list A) (i : Z) :
  1 <= i -> getitem (x :: xs) i = getitem (y :: xs) i.
Proof.
  intros Hi. unfold getitem. simpl length.
  destruct (Z.ltb_spec i 0); [lia |].
  destruct (_ || _); [reflexivity |].
  destruct (Z.to_nat i) as [|n] eqn:Hn; [lia | reflexivity].
Qed.

Lemma preprocess_line_first_field self line c0 rest :
  split (strip line) (textutils.delim self) = Ok (c0 :: rest) ->
  CsvUtils.preprocess_line self line
  = Ok (CsvUtils.replace_underscore c0 :: rest).
Proof.
  intros Hsplit. unfold CsvUtils.preprocess_line, textutils.preprocess_line.
  rewrite Hsplit. reflexivity.
Qed.

Lemma comprehension_entries self k v : 1 <= k -> 1 <= v ->
  forall lines acc,
    textutils.comprehension CsvUtils._do_preprocess self (k - 1) (v - 1) lines acc
    = table_of_entries (textutils.delim self) k v lines acc.
Proof.
  intros Hk Hv. induction lines as [|line lines IH]; intros acc; [reflexivity |].
  simpl. unfold table_entry.
  destruct (split (strip line) (textutils.delim self)) as [columns|e] eqn:Hsplit.
  - destruct (split_nonempty _ _ _ Hsplit) as (c0 & rest & ->).
    fold (CsvUtils.preprocess_line self line).
    rewrite (preprocess_line_first_field _ _ _ _ Hsplit). simpl.
    assert (Hfield : forall i, 1 <= i ->
              getitem (CsvUtils.replace_underscore c0 :: rest) (i - 1)
              = table_field (c0 :: rest) i).
    { intros i Hi. unfold table_field.
      destruct (Z.eqb_spec i 1) as [-> | Hne]; [reflexivity |].
      apply getitem_tail. lia. }
    rewrite (Hfield k Hk), (Hfield v Hv).
    destruct (table_field (c0 :: rest) k) as [key|]; simpl; [| reflexivity].
    destruct (table_field (c0 :: rest) v) as [val|]; simpl; [| reflexivity].
    apply IH.
  - unfold textutils.preprocess_line. rewrite Hsplit. reflexivity.
Qed.

(** C10: whatever key and value field are chosen, preprocessing a row
    replaces its first field by the stripped field with underscores
    turned into spaces and leaves every other field as the split produced
    it; so the table takes a key or value from field 1 in normalized form
    and from any other field verbatim, and a key from another field than
    the first keeps its underscores. *)
Theorem underscore_normalization_on_first_field :
  (forall self line columns,
     split (strip line) (textutils.delim self) = Ok columns ->
     exists c0 rest,
       columns = c0 :: rest
       /\ CsvUtils.preprocess_line self line
          = Ok (CsvUtils.replace_underscore c0 :: rest))
  /\ (forall self key_idx value_idx,
        1 <= key_idx -> 1 <= value_idx -> key_idx <> value_idx ->
        CsvUtils.prepare_kv self key_idx value_idx
        = match table_of_entries (textutils.delim self) key_idx value_idx
                  (textutils.lines self) ∅ with
          | Raise (IndexError _) =>
              Raise (IndexError "failed to get the element of the row number")
          | r => r
          end)
  /\ (forall columns idx,
        1 <= idx -> idx <> 1 ->
        table_field columns idx = getitem columns (idx - 1)).
Proof.
  split; [| split].
  - intros self line columns Hsplit.
    destruct (split_nonempty _ _ _ Hsplit) as (c0 & rest & ->).
    exists c0, rest. split; [reflexivity |].
    now apply preprocess_line_first_field.
  - intros self k v Hk Hv Hne.
    unfold CsvUtils.prepare_kv, textutils.prepare_kv.
    unfold textutils.is_ranged_or_raise, textutils.is_different_idx_or_raise.
    destruct (Z.ltb_spec k 1); [lia |]. destruct (Z.ltb_spec v 1); [lia |].
    destruct (Z.eqb_spec k v); [lia |]. simpl.
    now rewrite comprehension_entries.
  - intros columns idx _ Hne. unfold table_field.
    destruct (Z.eqb_spec idx 1); [lia | reflexivity].
Qed.

Lemma underscore_normalization_on_first_field_witness :
  CsvUtils.prepare_kv
    {| textutils.lines := [" long_hair,very_long,12_000 "]; textutils.delim := "," |} 2 3
  = Ok {[ "very_long" := "12_000" ]}
  /\ CsvUtils.prepare_kv
       {| textutils.lines := [" long_hair,very_long,12_000 "]; textutils.delim := "," |} 2 1
     = Ok {[ "very_long" := "long hair" ]}.
Proof.
  split.
  - refine (eq_trans
              (proj1 (proj2 underscore_normalization_on_first_field)
                 {| textutils.lines := [" long_hair,very_long,12_000 "];
                    textutils.delim := "," |} 2 3 _ _ _) _);
      [lia | lia | lia | vm_compute; reflexivity].
  - refine (eq_trans
              (proj1 (proj2 underscore_normalization_on_first_field)
                 {| textutils.lines := [" long_hair,very_long,12_000 "];
                    textutils.delim := "," |} 2 1 _ _ _) _);
      [lia | lia | lia | vm_compute; reflexivity].
Defined.

(** ** Session engine *)

(** C5: [_run_once] calls the execution callback exactly once whatever
    the read did.  When the read hits end of input or is interrupted, the
    callback gets the empty string, a newline goes to the error stream,
    the result of the callback is still written, and [SystemExit(1)]
    leaves the method; the exit status is not zero unless the callback
    itself raised a [SystemExit]. *)
Theorem non_interactive_always_executes :
  forall (callback : string -> result string) (a : answer),
    let o := RunnerNonInteractiveSingle._run_once callback a in
    length (RunnerNonInteractiveSingle.executed o) = 1%nat
    /\ (forall s, a = Gives s ->
          RunnerNonInteractiveSingle.executed o = [strip s])
    /\ (a = EndOfInput \/ a = Interrupted ->
          RunnerNonInteractiveSingle.executed o = [""]
          /\ RunnerNonInteractiveSingle.stderr o = [String "010" ""]
          /\ (forall out, callback "" = Ok out ->
                RunnerNonInteractiveSingle.written o = [out]
                /\ RunnerNonInteractiveSingle.raised o = Some (SystemExit 1)
                /\ RunnerNonInteractiveSingle.exit_status o = 1)
          /\ (forall e, callback "" = Raise e ->
                RunnerNonInteractiveSingle.written o = []
                /\ RunnerNonInteractiveSingle.raised o = Some e)
          /\ ((forall code, callback "" <> Raise (SystemExit code)) ->
                RunnerNonInteractiveSingle.exit_status o <> 0)).
Proof.
  intros callback a o. subst o.
  unfold RunnerNonInteractiveSingle._run_once,
    RunnerNonInteractiveSingle.finally,
    RunnerNonInteractiveSingle._execute_single,
    RunnerNonInteractiveSingle.exit_status.
  split; [| split].
  - destruct a; simpl; destruct (callback _); reflexivity.
  - intros s ->. destruct (callback _); reflexivity.
  - intros [-> | ->];
      (destruct (callback "") as [out|e] eqn:Hcb; simpl;
       (split; [reflexivity |]); (split; [reflexivity |]);
       (split; [intros out' [= <-]; auto |]);
       (split; [intros e' [= <-]; auto |]);
       intros Hnot; try discriminate;
       destruct e; try discriminate; exfalso; eapply Hnot; reflexivity).
Qed.

Lemma non_interactive_always_executes_witness :
  let o := RunnerNonInteractiveSingle._run_once
             (RunnerTagFindNonInteractive._execute_single_inner scenario_runner) EndOfInput in
  RunnerNonInteractiveSingle.executed o = [""]
  /\ RunnerNonInteractiveSingle.written o = [""]
  /\ RunnerNonInteractiveSingle.exit_status o = 1.
Proof.
  intros o.
  pose proof (non_interactive_always_executes
                (RunnerTagFindNonInteractive._execute_single_inner scenario_runner) EndOfInput) as H.
  destruct H as (_ & _ & H).
  destruct (H (or_introl eq_refl)) as (Hexec & _ & Hok & _).
  destruct (Hok "" eq_refl) as (Hw & _ & Hst).
  exact (conj Hexec (conj Hw Hst)).
Defined.

Import RunnerInteractiveMultiple DualInput.

Section DualInputProofs.

Variable callback : string -> string -> result string.
Variable foreground : string.

Lemma run_cons c a answers :
  run callback c (a :: answers) = run callback (step callback c a) answers.
Proof. reflexivity. Qed.

Lemma start_consistent : consistent foreground (_start_loop callback foreground).
Proof. intros _. simpl. auto. Qed.

Lemma step_consistent c a :
  consistent foreground c -> consistent foreground (step callback c a).
Proof.
  destruct c as [[| | |] s]; try (intros _ H; discriminate H).
  intros H. destruct (H eq_refl) as [Hcol Hst]. clear H.
  destruct s as [st f sd col fg w l ex]. simpl in *. subst col.
  unfold step, on_answer, _handle_input_once.
  destruct Hst as [[-> ->] | [-> ->]];
    destruct a as [x | | | msg]; simpl;
    try (destruct (truthy x) eqn:Hx; simpl);
    unfold inner_loop, _execute_multi, outer_except, outer_break; simpl;
    rewrite ?Hx; simpl;
    try (destruct (callback _ _) as [out|[]]; simpl);
    intros Hc; try discriminate Hc; simpl; auto.
Qed.

Lemma run_consistent answers : forall c,
  consistent foreground c -> consistent foreground (run callback c answers).
Proof.
  induction answers as [|a answers IH]; intros c Hc; [exact Hc |].
  rewrite run_cons. apply IH. now apply step_consistent.
Qed.

Lemma step_alike ctl s1 s2 a :
  alike s1 s2 ->
  (step callback (ctl, s1) a).1 = (step callback (ctl, s2) a).1
  /\ alike (step callback (ctl, s1) a).2 (step callback (ctl, s2) a).2.
Proof.
  intros H. destruct ctl; try (split; [reflexivity | exact H]).
  destruct s1 as [st f1 sd1 col fg w l ex].
  destruct s2 as [st2 f2 sd2 col2 fg2 w2 l2 ex2].
  destruct H as (Hst & Hcol & Hfg & Hw & Hl & Hex & Hfirst).
  simpl in *. subst st2 col2 fg2 w2 l2 ex2.
  unfold step, on_answer, _handle_input_once.
  destruct a as [x | | | msg]; simpl.
  - destruct (truthy x) eqn:Hx; simpl; rewrite ?Hx.
    + destruct (Z.eqb_spec st 0) as [-> | Hne0]; simpl.
      * unfold alike; simpl. auto 10.
      * destruct (Z.eqb_spec st 10) as [-> | Hne10]; simpl.
        -- rewrite <- (Hfirst eq_refl).
           unfold _execute_multi, outer_except, outer_break.
           destruct (callback f1 x) as [out|[]]; simpl;
             unfold alike; simpl; auto 10.
        -- unfold alike; simpl. auto 10.
    + unfold alike; simpl. auto 10.
  - destruct (Z.eqb_spec st 0) as [-> | Hne0]; simpl.
    + unfold alike; simpl. auto 10.
    + destruct (Z.eqb_spec st 10) as [-> | Hne10]; simpl;
        unfold alike; simpl; auto 10.
  - unfold alike; simpl. auto 10.
  - unfold alike; simpl. auto 10.
Qed.

Lemma run_alike answers : forall ctl s1 s2,
  alike s1 s2 ->
  observable (run callback (ctl, s1) answers)
  = observable (run callback (ctl, s2) answers).
Proof.
  induction answers as [|a answers IH]; intros ctl s1 s2 H.
  - destruct H as (Hst & Hcol & Hfg & Hw & Hl & Hex & _).
    unfold observable. simpl. congruence.
  - rewrite !run_cons. destruct (step_alike ctl s1 s2 a H) as [Hctl Hs].
    destruct (step callback (ctl, s1) a) as [ctl1 s1'].
    destruct (step callback (ctl, s2) a) as [ctl2 s2'].
    simpl in Hctl, Hs. subst ctl2. now apply IH.
Qed.

End DualInputProofs.

(** The dual-input protocol as far as the code keeps it.  Take the loop
    after any sequence of answers of the input strategy.  If it is
    waiting for the second prompt, an end of
    input puts it back to waiting for the first one without ending the
    loop, without calling the callback and with the colour restored; from
    there on it behaves as a loop that starts a new pair, so the stored
    first prompt is gone; and a following pair of non-empty inputs is
    given to the callback and its result written.  A callback that always
    returns being given, an answer ends the loop exactly when it is an
    end of input received while waiting for the first prompt. *)
Theorem dual_input_abandonment :
  forall (callback : string -> string -> result string)
         (foreground : string) (answers : list answer),
    let c := run callback (_start_loop callback foreground) answers in
    (awaiting_second c ->
       let c' := step callback c EndOfInput in
       awaiting_first c'
       /\ ~ terminated c'
       /\ executed c'.2 = executed c.2
       /\ written c'.2 = written c.2
       /\ color_foreground c'.2 = foreground
       /\ (forall more,
             observable (run callback c' more)
             = observable (run callback (fresh_pair foreground c.2) more))
       /\ (forall y z out,
             truthy y = true -> truthy z = true -> callback y z = Ok out ->
             let c'' := run callback c' [Gives y; Gives z] in
             awaiting_first c''
             /\ executed c''.2 = executed c.2 ++ [(y, z)]
             /\ written c''.2 = written c.2 ++ [out +:+ String "010" ""]))
    /\ ((forall f s, returns (callback f s) = true) ->
        forall a,
          c.1 = InHandleInput ->
          (terminated (step callback c a) <-> awaiting_first c /\ a = EndOfInput)
          /\ (terminated (step callback c a) -> (step callback c a).1 = Returned)).
Proof.
  intros callback foreground answers c.
  pose proof (run_consistent callback foreground answers _
                (start_consistent callback foreground)) as Hinv.
  fold c in Hinv. destruct c as [ctl s]. split.
  - intros [Hctl Hst]. simpl in Hctl, Hst. subst ctl.
    destruct (Hinv eq_refl) as [Hcol _]. simpl in Hcol.
    destruct s as [st f sd col fg w l ex]. simpl in *. subst st col.
    unfold step, on_answer. simpl.
    split; [split; reflexivity |].
    split; [intros H; apply H; reflexivity |].
    split; [reflexivity |]. split; [reflexivity |]. split; [reflexivity |].
    split.
    + intros more. apply run_alike. unfold alike. simpl.
      repeat split; try reflexivity. intros H; discriminate H.
    + intros y z out Hy Hz Hcb.
      unfold run. simpl.
      repeat (unfold on_answer, inner_loop, _execute_multi; simpl;
              rewrite ?Hy, ?Hz, ?Hcb; simpl).
      split; [split; reflexivity |]. split; reflexivity.
  - intros Hret a Hctl. simpl in Hctl. subst ctl.
    destruct (Hinv eq_refl) as [Hcol Hst]. clear Hinv.
    destruct s as [st f sd col fg w l ex]. simpl in *. subst col.
    unfold terminated, awaiting_first, step, on_answer, _handle_input_once.
    destruct Hst as [[-> ->] | [-> ->]];
      destruct a as [x | | | msg]; simpl;
      try (destruct (truthy x) eqn:Hx; simpl);
      unfold inner_loop, _execute_multi, outer_except, outer_break; simpl;
      rewrite ?Hx; simpl;
      try (specialize (Hret f x); destruct (callback f x) as [out|e];
           [clear Hret | discriminate Hret]; simpl);
      (split; [split |]);
      try (intros H; exfalso; apply H; reflexivity);
      try (intros [_ H]; discriminate H);
      try (intros [[_ H] _]; discriminate H);
      try (intros _; split; [split |]; reflexivity);
      try (intros _; reflexivity);
      try (intros _ H; discriminate H).
Qed.

Lemma dual_input_abandonment_witness :
  let callback := fun first second : string => Ok (first +:+ " - " +:+ second) in
  let c := run callback (_start_loop callback "cyan")
             [Gives "x"; EndOfInput; Gives "y"; Gives "z"] in
  awaiting_first c
  /\ executed c.2 = [("y", "z")]
  /\ written c.2 = ["y - z" +:+ String "010" ""].
Proof.
  intros callback c.
  pose proof (dual_input_abandonment callback "cyan" [Gives "x"]) as [H _].
  specialize (H (conj eq_refl eq_refl)).
  destruct H as (_ & _ & _ & _ & _ & _ & H).
  exact (H "y" "z" "y - z" eq_refl eq_refl eq_refl).
Defined.

(** C2, where the code departs from it: a callback that raises a
    [ValueError] on the pair ends the dual-input loop although no end of
    input was received.  After the answer "x" the loop waits for the
    second prompt; on the answer "(y" the exception of the callback
    leaves [_start_loop].  So it does not hold that an answer ends the
    loop only if it is an end of input received while waiting for the
    first prompt.  The single-input loop, whose callback fails the same
    way, logs the error and keeps waiting. *)
Theorem dual_loop_ends_on_callback_error :
  let callback := fun first second : string =>
                    @Raise string (ValueError "unclosed parentheses") in
  let c := run callback (_start_loop callback "cyan") [Gives "x"] in
  awaiting_second c
  /\ (step callback c (Gives "(y")).1
     = Propagated (ValueError "unclosed parentheses")
  /\ terminated (step callback c (Gives "(y"))
  /\ ~ (forall (callback : string -> string -> result string)
               (foreground : string) (answers : list answer) (a : answer),
          (run callback (_start_loop callback foreground) answers).1
            = InHandleInput ->
          terminated
            (step callback
               (run callback (_start_loop callback foreground) answers) a) ->
          awaiting_first
            (run callback (_start_loop callback foreground) answers)
          /\ a = EndOfInput)
  /\ (RunnerInteractiveSingle.step
        (fun _ => Raise (ValueError "unclosed parentheses"))
        RunnerInteractiveSingle._start_loop (Ok "(y")).1
     = RunnerInteractiveSingle.InInput
  /\ RunnerInteractiveSingle.logged
       (RunnerInteractiveSingle.step
          (fun _ => Raise (ValueError "unclosed parentheses"))
          RunnerInteractiveSingle._start_loop (Ok "(y")).2
     = ["error: unclosed parentheses"].
Proof.
  intros callback c.
  split; [split; reflexivity |].
  split; [reflexivity |].
  split; [intros H; discriminate H |].
  split; [| split; reflexivity].
  intros H.
  destruct (H callback "cyan" [Gives "x"] (Gives "(y") eq_refl) as [_ Ha].
  - intros Hc. discriminate Hc.
  - discriminate Ha.
Qed.

(** * Further properties of the code *)

(** ** Building the table *)

Section PrepareKv.

Variable _do_preprocess : list string -> result (list string).

Lemma comprehension_delim_only self self' k v :
  textutils.delim self = textutils.delim self' ->
  forall lines acc,
    textutils.comprehension _do_preprocess self k v lines acc
    = textutils.comprehension _do_preprocess self' k v lines acc.
Proof.
  intros Hd. induction lines as [|line lines IH]; intros acc; [reflexivity |].
  simpl. unfold textutils.preprocess_line. rewrite Hd.
  destruct (split _ _) as [columns|]; [| reflexivity]. simpl.
  destruct (_do_preprocess columns) as [row|]; [| reflexivity]. simpl.
  destruct (getitem row k); [| reflexivity]. simpl.
  destruct (getitem row v); [| reflexivity]. simpl.
  apply IH.
Qed.

Lemma comprehension_app self k v lines1 : forall lines2 acc,
  textutils.comprehension _do_preprocess self k v (lines1 ++ lines2) acc
  = (m ← textutils.comprehension _do_preprocess self k v lines1 acc;
     textutils.comprehension _do_preprocess self k v lines2 m).
Proof.
  induction lines1 as [|line lines1 IH]; intros lines2 acc; [reflexivity |].
  simpl.
  destruct (textutils.preprocess_line _ _ _) as [row|]; [| reflexivity]. simpl.
  destruct (getitem row k); [| reflexivity]. simpl.
  destruct (getitem row v); [| reflexivity]. simpl.
  apply IH.
Qed.

Lemma comprehension_union self k v lines : forall acc m,
  textutils.comprehension _do_preprocess self k v lines ∅ = Ok m ->
  textutils.comprehension _do_preprocess self k v lines acc = Ok (m ∪ acc).
Proof.
  induction lines as [|line lines IH]; intros acc m.
  - intros [= <-]. now rewrite (left_id_L ∅ (∪)).
  - simpl.
    destruct (textutils.preprocess_line _ _ _) as [row|]; [| discriminate]. simpl.
    destruct (getitem row k) as [key|]; [| discriminate]. simpl.
    destruct (getitem row v) as [val|]; [| discriminate]. simpl.
    intros Hm.
    destruct (textutils.comprehension _do_preprocess self k v lines ∅)
      as [m0|] eqn:H0.
    + rewrite (IH _ _ eq_refl) in Hm. injection Hm as <-.
      rewrite (IH _ _ eq_refl).
      rewrite (insert_union_singleton_l acc), (insert_union_singleton_l ∅).
      rewrite (right_id_L ∅ (∪)). now rewrite (assoc_L (∪)).
    + exfalso. clear IH.
      assert (Hfail : forall acc', textutils.comprehension _do_preprocess self
                        k v lines acc' <> Ok m).
      { clear Hm. revert H0. generalize (∅ : gmap string string).
        induction lines as [|l ls IHl]; intros a0 H0 acc'; [discriminate H0 |].
        simpl in *.
        destruct (textutils.preprocess_line _ _ _) as [r|]; [| discriminate].
        simpl in *.
        destruct (getitem r k); [| discriminate]. simpl in *.
        destruct (getitem r v); [| discriminate]. simpl in *.
        eapply IHl. exact H0. }
      exact (Hfail _ Hm).
Qed.

Lemma prepare_kv_ok self k v m :
  textutils.prepare_kv _do_preprocess self k v = Ok m <->
  1 <= k /\ 1 <= v /\ k <> v
  /\ textutils.comprehension _do_preprocess self (k - 1) (v - 1)
       (textutils.lines self) ∅ = Ok m.
Proof.
  unfold textutils.prepare_kv, textutils.is_ranged_or_raise,
    textutils.is_different_idx_or_raise.
  destruct (Z.ltb_spec k 1); simpl; [split; [discriminate | lia] |].
  destruct (Z.ltb_spec v 1); simpl; [split; [discriminate | lia] |].
  destruct (Z.eqb_spec k v); simpl; [split; [discriminate | lia] |].
  destruct (textutils.comprehension _ _ _ _ _ _) as [m0|[]]; simpl;
    (split; [intros [= <-]; auto | intros (_ & _ & _ & H2); congruence])
    || (split; [discriminate | intros (_ & _ & _ & H2); discriminate H2]).
Qed.

(** X1: the field numbers are checked before any line is read: a number
    below 1 gives the range error, and two equal numbers (both at least
    1) give the error about identical fields, whatever the lines, the
    delimiter and the preprocessing hook are. *)
Theorem prepare_kv_index_validation :
  forall self key_idx value_idx,
    (key_idx < 1 \/ value_idx < 1 ->
     textutils.prepare_kv _do_preprocess self key_idx value_idx
     = Raise (ValueError "field number must be 1 or more"))
    /\ (1 <= key_idx -> key_idx = value_idx ->
        textutils.prepare_kv _do_preprocess self key_idx value_idx
        = Raise (ValueError "impossible to specify the same field number")).
Proof.
  intros self k v.
  unfold textutils.prepare_kv, textutils.is_ranged_or_raise,
    textutils.is_different_idx_or_raise.
  split.
  - intros Hlow.
    destruct (Z.ltb_spec k 1); simpl; [reflexivity |].
    destruct (Z.ltb_spec v 1); simpl; [reflexivity | lia].
  - intros Hk <-.
    destruct (Z.ltb_spec k 1); simpl; [lia |].
    now rewrite Z.eqb_refl.
Qed.

(** X2: with valid field numbers, a table file without lines gives the
    empty table even when the delimiter is empty, and an empty delimiter
    with at least one line makes the build fail with the [ValueError] of
    [str.split], not with an [IndexError]. *)
Theorem prepare_kv_empty_delimiter :
  forall delim key_idx value_idx line lines,
    1 <= key_idx -> 1 <= value_idx -> key_idx <> value_idx ->
    textutils.prepare_kv _do_preprocess
      {| textutils.lines := []; textutils.delim := delim |} key_idx value_idx
    = Ok ∅
    /\ textutils.prepare_kv _do_preprocess
         {| textutils.lines := line :: lines; textutils.delim := "" |}
         key_idx value_idx
       = Raise (ValueError "empty separator").
Proof.
  intros delim k v line lines Hk Hv Hne.
  unfold textutils.prepare_kv, textutils.is_ranged_or_raise,
    textutils.is_different_idx_or_raise.
  destruct (Z.ltb_spec k 1); [lia |]. destruct (Z.ltb_spec v 1); [lia |].
  destruct (Z.eqb_spec k v); [lia |]. split; reflexivity.
Qed.

(** X3: later rows override earlier ones.  When the two parts of a file
    build the tables [m1] and [m2], the whole file builds the table that
    has every entry of [m2] and, for the other keys, the entries of
    [m1]. *)
Theorem prepare_kv_later_rows_win :
  forall delim lines1 lines2 key_idx value_idx m1 m2,
    textutils.prepare_kv _do_preprocess
      {| textutils.lines := lines1; textutils.delim := delim |}
      key_idx value_idx = Ok m1 ->
    textutils.prepare_kv _do_preprocess
      {| textutils.lines := lines2; textutils.delim := delim |}
      key_idx value_idx = Ok m2 ->
    textutils.prepare_kv _do_preprocess
      {| textutils.lines := lines1 ++ lines2; textutils.delim := delim |}
      key_idx value_idx = Ok (m2 ∪ m1)
    /\ (forall key val, m2 !! key = Some val -> (m2 ∪ m1) !! key = Some val)
    /\ (forall key, m2 !! key = None -> (m2 ∪ m1) !! key = m1 !! key).
Proof.
  intros delim lines1 lines2 k v m1 m2 H1 H2.
  apply prepare_kv_ok in H1 as (Hk & Hv & Hne & H1).
  apply prepare_kv_ok in H2 as (_ & _ & _ & H2).
  simpl in H1, H2. split; [| split].
  - apply prepare_kv_ok. repeat split; try assumption. simpl.
    rewrite comprehension_app.
    rewrite (comprehension_delim_only
               {| textutils.lines := lines1 ++ lines2; textutils.delim := delim |}
               {| textutils.lines := lines1; textutils.delim := delim |}
               _ _ eq_refl lines1).
    rewrite H1. simpl.
    rewrite (comprehension_delim_only
               {| textutils.lines := lines1 ++ lines2; textutils.delim := delim |}
               {| textutils.lines := lines2; textutils.delim := delim |}
               _ _ eq_refl lines2).
    now apply comprehension_union.
  - intros key val Hkey. now apply lookup_union_Some_l.
  - intros key Hkey. now apply lookup_union_r.
Qed.

End PrepareKv.

Lemma prepare_kv_index_validation_witness :
  CsvUtils.prepare_kv
    {| textutils.lines := ["cat,10"]; textutils.delim := "," |} 0 2
  = Raise (ValueError "field number must be 1 or more")
  /\ CsvUtils.prepare_kv
       {| textutils.lines := ["cat,10"]; textutils.delim := "," |} 2 2
     = Raise (ValueError "impossible to specify the same field number").
Proof.
  split.
  - apply (proj1 (prepare_kv_index_validation CsvUtils._do_preprocess
                    {| textutils.lines := ["cat,10"]; textutils.delim := "," |}
                    0 2)).
    left. lia.
  - apply (proj2 (prepare_kv_index_validation CsvUtils._do_preprocess
                    {| textutils.lines := ["cat,10"]; textutils.delim := "," |}
                    2 2)); [lia | reflexivity].
Defined.

Lemma prepare_kv_empty_delimiter_witness :
  CsvUtils.prepare_kv
    {| textutils.lines := ["cat,10"; "dog,5"]; textutils.delim := "" |} 1 2
  = Raise (ValueError "empty separator").
Proof.
  apply (proj2 (prepare_kv_empty_delimiter CsvUtils._do_preprocess
                  "," 1 2 "cat,10" ["dog,5"] ltac:(lia) ltac:(lia) ltac:(lia))).
Defined.

Lemma prepare_kv_later_rows_win_witness :
  CsvUtils.prepare_kv
    {| textutils.lines := ["cat,10"; "dog,5"] ++ ["cat,11"];
       textutils.delim := "," |} 1 2
  = Ok ({[ "cat" := "11" ]} ∪ {[ "cat" := "10"; "dog" := "5" ]}).
Proof.
  assert (H1 : CsvUtils.prepare_kv
                 {| textutils.lines := ["cat,10"; "dog,5"];
                    textutils.delim := "," |} 1 2
               = Ok {[ "cat" := "10"; "dog" := "5" ]})
    by (vm_compute; reflexivity).
  assert (H2 : CsvUtils.prepare_kv
                 {| textutils.lines := ["cat,11"]; textutils.delim := "," |} 1 2
               = Ok {[ "cat" := "11" ]})
    by (vm_compute; reflexivity).
  exact (proj1 (prepare_kv_later_rows_win CsvUtils._do_preprocess
                  "," ["cat,10"; "dog,5"] ["cat,11"] 1 2 _ _ H1 H2)).
Defined.

(** ** Rows that are too short, and the normalization of field 1 *)

Lemma getitem_in_range {A} (xs : list A) (i : Z) :
  0 <= i ->
  if i <? Z.of_nat (length xs)
  then exists x, getitem xs i = Ok x
  else getitem xs i = Raise (IndexError "list index out of range").
Proof.
  intros Hi. unfold getitem. cbv zeta.
  destruct (Z.ltb_spec i 0) as [| _]; [lia |].
  destruct (Z.ltb_spec i 0) as [| _]; [lia |].
  destruct (Z.ltb_spec i (Z.of_nat (length xs))) as [Hlt | Hge].
  - destruct (Z.leb_spec (Z.of_nat (length xs)) i); [lia |]. simpl.
    destruct (lookup_lt_is_Some_2 xs (Z.to_nat i)) as [x Hx]; [lia |].
    rewrite Hx. eauto.
  - destruct (Z.leb_spec (Z.of_nat (length xs)) i); [| lia].
    reflexivity.
Qed.

Lemma table_field_in_range (c0 : string) (rest : list string) (idx : Z) :
  1 <= idx ->
  if idx <=? Z.of_nat (length (c0 :: rest))
  then exists x, table_field (c0 :: rest) idx = Ok x
  else table_field (c0 :: rest) idx
       = Raise (IndexError "list index out of range").
Proof.
  intros Hidx. unfold table_field.
  destruct (Z.eqb_spec idx 1) as [-> | Hne].
  - destruct (Z.leb_spec 1 (Z.of_nat (length (c0 :: rest)))) as [_ | Hlt];
      [simpl; eauto | simpl length in Hlt; lia].
  - pose proof (getitem_in_range (c0 :: rest) (idx - 1) ltac:(lia)) as H.
    destruct (Z.leb_spec idx (Z.of_nat (length (c0 :: rest))));
      destruct (Z.ltb_spec (idx - 1) (Z.of_nat (length (c0 :: rest))));
      try lia; exact H.
Qed.

Lemma table_entry_enough_fields delim line k v :
  delim <> "" -> 1 <= k -> 1 <= v ->
  if enough_fields delim k v line
  then exists entry, table_entry delim line k v = Ok entry
  else table_entry delim line k v
       = Raise (IndexError "list index out of range").
Proof.
  intros Hd Hk Hv. unfold enough_fields, field_count, table_entry.
  destruct (split (strip line) delim) as [columns|e] eqn:Hsplit.
  - destruct (split_nonempty _ _ _ Hsplit) as (c0 & rest & ->). simpl mbind.
    pose proof (table_field_in_range c0 rest k Hk) as Hfk.
    pose proof (table_field_in_range c0 rest v Hv) as Hfv.
    destruct (Z.leb_spec (Z.max k v) (Z.of_nat (length (c0 :: rest)))) as [Hle|Hgt].
    + destruct (Z.leb_spec k (Z.of_nat (length (c0 :: rest)))); [| lia].
      destruct (Z.leb_spec v (Z.of_nat (length (c0 :: rest)))); [| lia].
      destruct Hfk as [key ->], Hfv as [val ->]. simpl. eauto.
    + destruct (Z.leb_spec k (Z.of_nat (length (c0 :: rest)))).
      * destruct (Z.leb_spec v (Z.of_nat (length (c0 :: rest)))); [lia |].
        destruct Hfk as [key ->]. rewrite Hfv. reflexivity.
      * rewrite Hfk. reflexivity.
  - unfold split in Hsplit. destruct delim; [congruence |].
    destruct (split_scan _ _ _). discriminate Hsplit.
Qed.

Lemma table_of_entries_enough_fields delim k v lines :
  delim <> "" -> 1 <= k -> 1 <= v ->
  forall acc,
    if forallb (enough_fields delim k v) lines
    then exists m, table_of_entries delim k v lines acc = Ok m
    else table_of_entries delim k v lines acc
         = Raise (IndexError "list index out of range").
Proof.
  intros Hd Hk Hv. induction lines as [|line lines IH]; intros acc.
  - simpl. eauto.
  - simpl.
    pose proof (table_entry_enough_fields delim line k v Hd Hk Hv) as Hline.
    destruct (enough_fields delim k v line); simpl.
    + destruct Hline as [entry ->]. simpl. apply IH.
    + rewrite Hline. reflexivity.
Qed.

(** X4: with valid field numbers and a non-empty delimiter, the table of
    the tag lookup is built exactly when every line, stripped and split,
    has a field for both numbers; one line that is too short makes the
    whole build fail with the [IndexError] of [prepare_kv]. *)
Theorem prepare_kv_short_row :
  forall self key_idx value_idx,
    1 <= key_idx -> 1 <= value_idx -> key_idx <> value_idx ->
    textutils.delim self <> "" ->
    if forallb (enough_fields (textutils.delim self) key_idx value_idx)
         (textutils.lines self)
    then exists m, CsvUtils.prepare_kv self key_idx value_idx = Ok m
    else CsvUtils.prepare_kv self key_idx value_idx
         = Raise (IndexError "failed to get the element of the row number").
Proof.
  intros self k v Hk Hv Hne Hd.
  unfold CsvUtils.prepare_kv, textutils.prepare_kv,
    textutils.is_ranged_or_raise, textutils.is_different_idx_or_raise.
  destruct (Z.ltb_spec k 1); [lia |]. destruct (Z.ltb_spec v 1); [lia |].
  destruct (Z.eqb_spec k v); [lia |]. simpl.
  rewrite comprehension_entries by assumption.
  pose proof (table_of_entries_enough_fields (textutils.delim self) k v
                (textutils.lines self) Hd Hk Hv ∅) as Hall.
  destruct (forallb _ _).
  - destruct Hall as [m ->]. eauto.
  - rewrite Hall. reflexivity.
Qed.

Lemma prepare_kv_short_row_witness :
  CsvUtils.prepare_kv
    {| textutils.lines := ["cat,10"; ""; "dog,5"]; textutils.delim := "," |} 1 2
  = Raise (IndexError "failed to get the element of the row number").
Proof.
  exact (prepare_kv_short_row
           {| textutils.lines := ["cat,10"; ""; "dog,5"]; textutils.delim := "," |}
           1 2 ltac:(lia) ltac:(lia) ltac:(lia) ltac:(discriminate)).
Defined.

Lemma join_cons_char sep c f fs :
  join sep (String c f :: fs) = String c (join sep (f :: fs)).
Proof. destruct fs; reflexivity. Qed.

Lemma prefix_empty (s : string) : String.prefix "" s = true.
Proof. destruct s; reflexivity. Qed.

Lemma replace_underscore_chars (s : string) :
  chars (replace s "_" " ")
  = (fun c => if is_underscore c then " "%char else c) <$> chars s.
Proof.
  unfold replace.
  induction s as [|c s IH]; [reflexivity |].
  change (split_scan "_" 0 (String c s))
    with (if String.prefix "_" (String c s)
          then let '(f, fs) := split_scan "_" 0 s in ("", f :: fs)
          else let '(f, fs) := split_scan "_" 0 s in (String c f, fs)).
  change (String.prefix "_" (String c s))
    with (if ascii_dec "_" c then String.prefix "" s else false).
  rewrite prefix_empty.
  destruct (split_scan "_" 0 s) as [f fs]. cbv beta iota in IH.
  change (chars (String c s)) with (c :: chars s).
  rewrite fmap_cons, <- IH.
  destruct (ascii_dec "_" c) as [<- | Hne]; cbv beta iota.
  - reflexivity.
  - rewrite join_cons_char.
    assert (is_underscore c = false) as ->
      by (apply Ascii.eqb_neq; congruence).
    reflexivity.
Qed.

Lemma underscores_substituted (r s : string) :
  chars r = (fun c => if is_underscore c then " "%char else c) <$> chars s ->
  count_char is_underscore r = O /\ String.length r = String.length s.
Proof.
  revert r. induction s as [|c s IH]; intros [|d r] H;
    cbn [chars] in H; rewrite ?fmap_cons, ?fmap_nil in H;
    try discriminate H.
  - split; reflexivity.
  - injection H as Hd Hr. destruct (IH r Hr) as [Hc Hl].
    split.
    + simpl. rewrite Hc. subst d.
      destruct (is_underscore c) eqn:Hu; [reflexivity | now rewrite Hu].
    + simpl. now rewrite Hl.
Qed.

(** X5: [CsvUtils.replace_underscore] turns every underscore of the
    stripped field into a space and changes nothing else; the result
    contains no underscore and is as long as the stripped field. *)
Theorem replace_underscore_spec :
  forall line : string,
    chars (CsvUtils.replace_underscore line)
    = (fun c => if is_underscore c then " "%char else c) <$> chars (strip line)
    /\ count_char is_underscore (CsvUtils.replace_underscore line) = O
    /\ String.length (CsvUtils.replace_underscore line)
       = String.length (strip line).
Proof.
  intros line. unfold CsvUtils.replace_underscore.
  pose proof (replace_underscore_chars (strip line)) as H.
  split; [exact H |]. now apply underscores_substituted.
Qed.

(** ** The token finder *)

(** X6: [TokenFinder.execute] can only fail with a [ValueError], and
    whether it fails depends on the separators alone: it returns exactly
    when the field separator is set and the input separator is not
    empty, for every prompt and every table. *)
Theorem execute_failure :
  forall self prompt kv,
    (returns (execute self prompt kv) = true
     <-> sep_field (_delimiter self) <> None
         /\ sep_input (_delimiter self) <> "")
    /\ (forall e, execute self prompt kv = Raise e -> exists msg, e = ValueError msg)
    /\ (forall prompt' kv',
          returns (execute self prompt' kv') = returns (execute self prompt kv)).
Proof.
  intros self prompt kv. split; [apply execute_returns_iff |]. split.
  - intros e. unfold execute, split.
    destruct (sep_field (_delimiter self)); [| intros [= <-]; eauto].
    destruct (sep_input (_delimiter self)); simpl; [intros [= <-]; eauto |].
    destruct (split_scan _ _ _). discriminate.
  - intros prompt' kv'.
    pose proof (execute_returns_iff self prompt kv) as H.
    pose proof (execute_returns_iff self prompt' kv') as H'.
    destruct (returns (execute self prompt kv)),
      (returns (execute self prompt' kv')); try reflexivity.
    + destruct H as [H _]. specialize (H eq_refl).
      destruct H' as [_ H']. specialize (H' H). discriminate H'.
    + destruct H' as [H' _]. specialize (H' eq_refl).
      destruct H as [_ H]. specialize (H H'). discriminate H.
Qed.

Lemma execute_loop_all self field_d kv tokens :
  Forall (fun t => truthy (strip t) = true) tokens ->
  execute_loop self field_d kv tokens = record_of self field_d kv <$> tokens.
Proof.
  induction 1 as [|t tokens Ht _ IH]; [reflexivity |].
  simpl. rewrite Ht. simpl. now rewrite IH.
Qed.

(** X7: when no token of the prompt is blank, the output has one record
    per token, in order, joined by the output separator; a token that is
    not a key of the table gets the count NULL. *)
Theorem execute_one_record_per_token :
  forall self prompt kv field_d tokens,
    sep_field (_delimiter self) = Some field_d ->
    split prompt (sep_input (_delimiter self)) = Ok tokens ->
    Forall (fun t => truthy (strip t) = true) tokens ->
    execute self prompt kv
    = Ok (join (sep_output (_delimiter self))
            (record_of self field_d kv <$> tokens))
    /\ length (execute_loop self field_d kv tokens) = length tokens
    /\ (forall t, t ∈ tokens -> kv !! strip t = None ->
          record_of self field_d kv t
          = _formatter self (strip t) +:+ field_d +:+ "NULL").
Proof.
  intros self prompt kv field_d tokens Hf Hsplit Hall.
  split; [| split].
  - unfold execute. rewrite Hf, Hsplit. simpl.
    now rewrite execute_loop_all.
  - rewrite execute_loop_all by assumption. now rewrite length_fmap.
  - intros t _ Hnone. unfold record_of. now rewrite Hnone.
Qed.

Lemma execute_one_record_per_token_witness :
  execute scenario_finder "fox, cat"
    (<["cat" := "10"]> ∅)
  = Ok (join " | "
          (record_of scenario_finder ":" (<["cat" := "10"]> ∅)
             <$> ["fox"; " cat"])).
Proof.
  refine (proj1 (execute_one_record_per_token scenario_finder "fox, cat"
                   (<["cat" := "10"]> ∅) ":" ["fox"; " cat"]
                   eq_refl eq_refl _)).
  repeat constructor.
Defined.

Lemma split_scan_trailing (c : ascii) (s : string) :
  split_scan (String c "") 0 (s +:+ String c "")
  = ((split_scan (String c "") 0 s).1,
     (split_scan (String c "") 0 s).2 ++ [""]).
Proof.
  induction s as [|d s IH].
  - change (split_scan (String c "") 0 ("" +:+ String c ""))
      with (if (if ascii_dec c c then true else false)
            then ("", [""]) else (String c "", [])).
    destruct (ascii_dec c c); [reflexivity | congruence].
  - change (String d s +:+ String c "") with (String d (s +:+ String c "")).
    change (split_scan (String c "") 0 (String d (s +:+ String c "")))
      with (if String.prefix (String c "") (String d (s +:+ String c ""))
            then let '(f, fs) := split_scan (String c "") 0 (s +:+ String c "")
                 in ("", f :: fs)
            else let '(f, fs) := split_scan (String c "") 0 (s +:+ String c "")
                 in (String d f, fs)).
    change (split_scan (String c "") 0 (String d s))
      with (if String.prefix (String c "") (String d s)
            then let '(f, fs) := split_scan (String c "") 0 s in ("", f :: fs)
            else let '(f, fs) := split_scan (String c "") 0 s in (String d f, fs)).
    change (String.prefix (String c "") (String d (s +:+ String c "")))
      with (if ascii_dec c d then String.prefix "" (s +:+ String c "") else false).
    change (String.prefix (String c "") (String d s))
      with (if ascii_dec c d then String.prefix "" s else false).
    rewrite !prefix_empty, IH.
    destruct (split_scan (String c "") 0 s) as [f fs].
    destruct (ascii_dec c d); reflexivity.
Qed.

Lemma execute_loop_trailing_blank self field_d kv tokens :
  execute_loop self field_d kv (tokens ++ [""])
  = execute_loop self field_d kv tokens.
Proof.
  induction tokens as [|t tokens IH]; [reflexivity |].
  simpl. now rewrite IH.
Qed.

(** X8: with an input separator of one character, a separator at the end
    of the prompt changes nothing: the empty token after it ends the
    loop without a record. *)
Theorem execute_trailing_delimiter :
  forall self prompt kv (c : ascii),
    sep_input (_delimiter self) = String c "" ->
    execute self (prompt +:+ String c "") kv = execute self prompt kv.
Proof.
  intros self prompt kv c Hin. unfold execute. rewrite Hin.
  destruct (sep_field (_delimiter self)) as [field_d|]; [| reflexivity].
  unfold split. rewrite split_scan_trailing.
  destruct (split_scan (String c "") 0 prompt) as [f fs].
  cbv beta iota delta [fst snd mbind result_bind].
  change (f :: fs ++ [""]) with ((f :: fs) ++ [""]).
  now rewrite execute_loop_trailing_blank.
Qed.

Lemma execute_trailing_delimiter_witness :
  execute scenario_finder ("cat,dog" +:+ ",") ∅
  = execute scenario_finder "cat,dog" ∅.
Proof.
  exact (execute_trailing_delimiter scenario_finder "cat,dog" ∅ "," eq_refl).
Defined.

Lemma rstrip_blank (s : string) : lstrip s = "" -> rstrip s = "".
Proof.
  induction s as [|c s IH]; [reflexivity |].
  simpl. destruct (isspace c) eqn:Hc; [| discriminate].
  intros H. now rewrite (IH H).
Qed.

Lemma strip_blank_iff (s : string) : strip s = "" <-> lstrip s = "".
Proof.
  unfold strip. split.
  - induction s as [|c s IH]; [reflexivity |].
    simpl. destruct (isspace c) eqn:Hc; [exact IH |].
    simpl. destruct (rstrip s); rewrite ?Hc; discriminate.
  - intros ->. reflexivity.
Qed.

Lemma split_scan_cons sep c s :
  split_scan sep 0 (String c s)
  = if String.prefix sep (String c s)
    then let '(f, fs) := split_scan sep (Nat.pred (String.length sep)) s
         in ("", f :: fs)
    else let '(f, fs) := split_scan sep 0 s in (String c f, fs).
Proof. reflexivity. Qed.

Lemma first_field_blank sep (s : string) : forall skip,
  lstrip s = "" -> lstrip (split_scan sep skip s).1 = "".
Proof.
  induction s as [|c s IH]; intros skip Hs; [reflexivity |].
  simpl in Hs. destruct (isspace c) eqn:Hc; [| discriminate].
  destruct skip as [|n]; [| now apply IH].
  rewrite split_scan_cons.
  destruct (String.prefix sep (String c s)).
  - destruct (split_scan sep _ s). reflexivity.
  - specialize (IH O Hs). destruct (split_scan sep 0 s) as [f fs].
    simpl in *. now rewrite Hc.
Qed.

(** X9: a prompt that is empty or consists of whitespace gives the empty
    output, whatever the table is, as soon as the separators are usable. *)
Theorem execute_blank_prompt :
  forall self prompt kv,
    sep_field (_delimiter self) <> None ->
    sep_input (_delimiter self) <> "" ->
    strip prompt = "" ->
    execute self prompt kv = Ok "".
Proof.
  intros self prompt kv Hf Hin Hblank. unfold execute, split.
  destruct (sep_field (_delimiter self)) as [field_d|]; [| congruence].
  destruct (sep_input (_delimiter self)) as [|c sep] eqn:Hsep; [congruence |].
  apply strip_blank_iff in Hblank.
  pose proof (first_field_blank (String c sep) prompt O Hblank) as Hfirst.
  destruct (split_scan (String c sep) 0 prompt) as [f fs]. simpl in Hfirst.
  apply strip_blank_iff in Hfirst. simpl. now rewrite Hfirst.
Qed.

Lemma execute_blank_prompt_witness :
  execute scenario_finder "   " (<["cat" := "10"]> ∅) = Ok "".
Proof.
  exact (execute_blank_prompt scenario_finder "   " (<["cat" := "10"]> ∅)
           ltac:(discriminate) ltac:(discriminate) eq_refl).
Defined.

(** ** Escaping and the choice of the formatter *)

Lemma escape_parentheses_head s c r :
  TFindEscaper.escape_parentheses s = String c r ->
  TFindEscaper.parentheses c = false.
Proof.
  destruct s as [|d s]; [discriminate |]. simpl.
  destruct (TFindEscaper.parentheses d) eqn:Hd; intros [= <- _];
    [reflexivity | exact Hd].
Qed.

Lemma escape_parentheses_length (t : string) :
  String.length (TFindEscaper.escape_parentheses t)
  = (String.length t + count_char TFindEscaper.parentheses t)%nat.
Proof.
  induction t as [|c t IH]; [reflexivity |].
  simpl. destruct (TFindEscaper.parentheses c); simpl; rewrite IH; lia.
Qed.

(** X10: [TFindEscaper.escape_parentheses] never maps two different
    texts to the same output. *)
Theorem escape_parentheses_injective :
  forall t1 t2 : string,
    TFindEscaper.escape_parentheses t1 = TFindEscaper.escape_parentheses t2 ->
    t1 = t2.
Proof.
  induction t1 as [|c1 r1 IH]; intros [|c2 r2] H.
  - reflexivity.
  - simpl in H. destruct (TFindEscaper.parentheses c2); discriminate H.
  - simpl in H. destruct (TFindEscaper.parentheses c1); discriminate H.
  - simpl in H.
    destruct (TFindEscaper.parentheses c1) eqn:H1,
             (TFindEscaper.parentheses c2) eqn:H2.
    + injection H as -> H. now rewrite (IH _ H).
    + injection H as <- H. symmetry in H.
      apply escape_parentheses_head in H. congruence.
    + injection H as -> H.
      apply escape_parentheses_head in H. congruence.
    + injection H as -> H. now rewrite (IH _ H).
Qed.

Lemma escape_parentheses_injective_witness :
  "a(b" = "a(b".
Proof.
  exact (escape_parentheses_injective "a(b" "a(b" eq_refl).
Defined.

(** X11: escaping works piece by piece, and it leaves a text as it is
    exactly when the text has no character "(" or ")". *)
Theorem escape_parentheses_append :
  forall a b : string,
    TFindEscaper.escape_parentheses (a +:+ b)
    = TFindEscaper.escape_parentheses a +:+ TFindEscaper.escape_parentheses b
    /\ (TFindEscaper.escape_parentheses a = a
        <-> count_char is_parenthesis a = O)
    /\ (count_char is_parenthesis a = O
        <-> Forall (fun c => c <> "("%char /\ c <> ")"%char) (chars a)).
Proof.
  intros a b. split; [| split].
  - induction a as [|c a IH]; [reflexivity |].
    change (String c a +:+ b) with (String c (a +:+ b)).
    simpl TFindEscaper.escape_parentheses. rewrite IH.
    destruct (TFindEscaper.parentheses c); reflexivity.
  - rewrite <- (count_char_ext _ _ a parentheses_class). split.
    + intros H. pose proof (escape_parentheses_length a) as Hl.
      rewrite H in Hl. lia.
    + induction a as [|c a IH]; [reflexivity |].
      simpl. destruct (TFindEscaper.parentheses c); [discriminate |].
      intros H. now rewrite (IH H).
  - induction a as [|c a IH]; simpl.
    + split; [constructor | reflexivity].
    + destruct (is_parenthesis c) eqn:Hc.
      * split; [discriminate |]. intros H. exfalso.
        apply Forall_cons in H as [[Ho Hcl] _].
        destruct c as [[] [] [] [] [] [] [] []]; try discriminate Hc;
          congruence.
      * simpl. rewrite IH. split.
        -- intros H. apply Forall_cons. split; [| exact H].
           split; intros ->; discriminate Hc.
        -- intros H. now apply Forall_cons in H as [_ H].
Qed.

(** X12: the formatter lookup of [to_runner] succeeds exactly for the
    names listed in [Formatter.choices], giving the formatter of that
    name; any other name is a [KeyError]. *)
Theorem select_formatter_choices :
  forall (Escaper_escape : string -> string) (formatter : string),
    (returns (ToRunner.select_formatter Escaper_escape formatter) = true
     <-> formatter ∈ Formatter.choices)
    /\ (formatter ∉ Formatter.choices ->
        exists msg, ToRunner.select_formatter Escaper_escape formatter
                    = Raise (KeyError msg))
    /\ ToRunner.select_formatter Escaper_escape "csv" = Ok Formatter.to_csv
    /\ ToRunner.select_formatter Escaper_escape "a1111" = Ok Formatter.to_a1111
    /\ ToRunner.select_formatter Escaper_escape "a1111compat"
       = Ok (Formatter.to_a1111_compat Escaper_escape).
Proof.
  intros E formatter.
  assert (Hcases :
            ((formatter ∈ Formatter.choices)
             /\ returns (ToRunner.select_formatter E formatter) = true)
            \/ ((formatter ∉ Formatter.choices)
                /\ ToRunner.select_formatter E formatter
                   = Raise (KeyError "no formatter applicable: %s"))).
  { unfold ToRunner.select_formatter, ToRunner.fmt_mapping, Formatter.choices.
    rewrite !lookup_insert, lookup_empty.
    repeat case_decide; subst; simpl;
      first [ left; split; [| reflexivity];
              repeat first [apply list_elem_of_here | apply list_elem_of_further]
            | right; split; [| reflexivity];
              rewrite !elem_of_cons, elem_of_nil; intuition congruence ]. }
  split; [| split].
  - destruct Hcases as [[Hin Hr] | [Hnot Hr]].
    + split; auto.
    + rewrite Hr. simpl. split; [discriminate | intros Hin; contradiction].
  - intros Hnot. destruct Hcases as [[Hin _] | [_ Hr]]; [contradiction |].
    eauto.
  - repeat split.
Qed.

Lemma select_formatter_choices_witness :
  exists msg, ToRunner.select_formatter (fun s => s) "json" = Raise (KeyError msg).
Proof.
  apply (proj1 (proj2 (select_formatter_choices (fun s => s) "json"))).
  unfold Formatter.choices. rewrite !elem_of_cons, elem_of_nil.
  intuition discriminate.
Defined.

(** ** The multi-line input strategy *)

(** X13: the constructor keeps the first label and gives the second
    label the value of the first one when none is passed; so the
    continuation label is empty only if the first label is. *)
Theorem multiple_init_labels :
  forall ps1 ps2 : string,
    MultipleInputStrategy.ps1 (MultipleInputStrategy.__init__ ps1 ps2) = ps1
    /\ MultipleInputStrategy.ps2 (MultipleInputStrategy.__init__ ps1 ps2)
       = (if String.eqb ps2 "" then ps1 else ps2)
    /\ (MultipleInputStrategy.ps2 (MultipleInputStrategy.__init__ ps1 ps2) = ""
        -> ps1 = "").
Proof.
  intros ps1 ps2. unfold MultipleInputStrategy.__init__.
  destruct (String.eqb_spec ps1 ""), (String.eqb_spec ps2 ""); subst; simpl;
    repeat split; auto; intros H; congruence.
Qed.


(** X14: the labels a call shows.  Reading the given lines and then the
    end of file, a call without argument shows the first label once and
    then the continuation label once per line; a call with an explicit
    prompt passes no prompt at all to the first read and the explicit
    prompt to each later one.  The newline that ends the input is written
    exactly when there was a line. *)
Theorem multiple_input_prompts :
  forall self prompt lines rest shown out,
    let c := {| stdin := (Line <$> lines) ++ Eof :: rest;
                prompted := shown; stdout := out |} in
    let c' := (MultipleInputStrategy.input self prompt c).2 in
    prompted c'
    = shown ++ first_prompt self prompt
        :: replicate (length lines) (Some (continuation_label self prompt))
    /\ stdout c' = match lines with
                   | [] => out
                   | _ :: _ => out ++ [String "010" ""]
                   end.
Proof.
  intros self prompt lines rest shown out c c'. subst c c'.
  unfold MultipleInputStrategy.input. simpl.
  destruct prompt as [p|]; simpl; rewrite read_loop_lines;
    destruct lines; split; reflexivity.
Qed.


(** ** The dual-input loop *)

Section DualInputInvariant.

Variable callback : string -> string -> result string.
Variable foreground : string.

Lemma step_well_formed c a :
  well_formed foreground c -> well_formed foreground (step callback c a).
Proof.
  destruct c as [ctl s]. intros (Hspin & Hex & Hwait). simpl in Hspin, Hex.
  destruct ctl; try exact (conj Hspin (conj Hex Hwait)).
  clear Hspin. destruct (Hwait eq_refl) as [Hcol Hst]. clear Hwait.
  destruct s as [st f sd col fg w l ex]. simpl in *. subst col.
  unfold well_formed, step, on_answer, _handle_input_once.
  destruct Hst as [[-> ->] | (-> & -> & Hf)];
    destruct a as [x | | | msg]; simpl;
    try (destruct (truthy x) eqn:Hx; simpl);
    unfold inner_loop, _execute_multi, outer_except, outer_break; simpl;
    rewrite ?Hx; simpl;
    try (destruct (callback f x) as [out|[]]; simpl);
    (split; [discriminate |]);
    (split; [first [ exact Hex
                   | apply Forall_app; split; [exact Hex |];
                     repeat constructor; assumption ] |]);
    intros Hc; try discriminate Hc; simpl; auto.
Qed.

Lemma run_well_formed answers : forall c,
  well_formed foreground c -> well_formed foreground (run callback c answers).
Proof.
  induction answers as [|a answers IH]; intros c Hc; [exact Hc |].
  rewrite run_cons. apply IH. now apply step_well_formed.
Qed.

Lemma start_well_formed :
  well_formed foreground (_start_loop callback foreground).
Proof.
  repeat split; simpl; auto; discriminate.
Qed.

(** X16: whatever the input strategy answers and whatever the callback
    does, the loop never reaches a state for which its inner loop has no
    branch; while it waits for input its state is 0 with the colour it
    found at the start, or 10 with the colour green and a non-empty first
    prompt stored. *)
Theorem dual_loop_states :
  forall answers,
    let c := run callback (_start_loop callback foreground) answers in
    c.1 <> Spinning
    /\ (c.1 = InHandleInput ->
        (state c.2 = 0 /\ color_foreground c.2 = foreground)
        \/ (state c.2 = 10 /\ color_foreground c.2 = "green"
            /\ truthy (first c.2) = true)).
Proof.
  intros answers c.
  destruct (run_well_formed answers _ start_well_formed) as (Hs & _ & Hw).
  split; [exact Hs |]. intros Hc. now destruct (Hw Hc).
Qed.

(** X17: the callback of the dual-input loop is only ever called with
    two non-empty prompts. *)
Theorem dual_loop_calls_nonempty :
  forall answers,
    Forall (fun p : string * string => truthy p.1 = true /\ truthy p.2 = true)
      (executed (run callback (_start_loop callback foreground) answers).2).
Proof.
  intros answers.
  now destruct (run_well_formed answers _ start_well_formed) as (_ & H & _).
Qed.

(** X18: an interrupt, a failure of the input strategy or an empty input
    leaves the loop waiting where it was: state, stored prompts, colour
    and calls are unchanged; the interrupt writes its notice and the
    failure is logged. *)
Theorem dual_loop_retry :
  forall (s : Session) (a : answer),
    retried a = true ->
    step callback (InHandleInput, s) a
    = (InHandleInput,
       {| state := state s; first := first s; second := second s;
          _color := _color s; color_foreground := color_foreground s;
          written := written s ++ retry_written a;
          logged := logged s ++ retry_logged a;
          executed := executed s |}).
Proof.
  intros s a Hr. unfold step, on_answer, _handle_input_once.
  destruct a as [x | | | msg]; simpl in *; try discriminate Hr;
    try reflexivity.
  destruct (truthy x); [discriminate Hr | reflexivity].
Qed.

(** X19: when the callback raises on a completed pair, the loop is over:
    it returns after the final newline if the exception is an
    [EOFError], otherwise the exception leaves the method.  Either way
    the pair counts as called, nothing of it is written, and the colour
    is left as it was while waiting for the second prompt. *)
Theorem dual_loop_callback_raises :
  forall (s : Session) (x : string) (e : exn),
    state s = 10 -> truthy x = true ->
    callback (first s) x = Raise e ->
    let c' := step callback (InHandleInput, s) (Gives x) in
    c'.1 = (match e with EOFError _ => Returned | _ => Propagated e end)
    /\ executed c'.2 = executed s ++ [(first s, x)]
    /\ written c'.2 = written s
                      ++ (match e with EOFError _ => [String "010" ""] | _ => [] end)
    /\ color_foreground c'.2 = color_foreground s.
Proof.
  intros s x e Hst Hx Hcb c'. subst c'.
  destruct s as [st f sd col fg w l ex]. simpl in *. subst st.
  unfold step, on_answer, _handle_input_once. rewrite Hx. simpl.
  unfold inner_loop. simpl. rewrite Hx. simpl.
  unfold _execute_multi. rewrite Hcb.
  destruct e; simpl; rewrite ?app_nil_r; repeat split.
Qed.

End DualInputInvariant.

Lemma dual_loop_states_witness :
  let callback := fun first second : string => Ok (first +:+ second) in
  let c := run callback (_start_loop callback "cyan") [Gives "x"; Interrupted] in
  state c.2 = 10 /\ color_foreground c.2 = "green"
  /\ truthy (first c.2) = true.
Proof.
  intros callback c.
  destruct (proj2 (dual_loop_states callback "cyan" [Gives "x"; Interrupted])
              eq_refl) as [[H _] | H].
  - discriminate H.
  - exact H.
Defined.

Lemma dual_loop_retry_witness :
  let callback := fun first second : string => Ok (first +:+ second) in
  (step callback (_start_loop callback "cyan") (Fails "boom")).1 = InHandleInput.
Proof.
  intros callback.
  exact (f_equal fst (dual_loop_retry callback (_start_loop callback "cyan").2
                        (Fails "boom") eq_refl)).
Defined.

Lemma dual_loop_callback_raises_witness :
  let callback := fun first second : string =>
                    @Raise string (ValueError "unbalanced") in
  let c := run callback (_start_loop callback "cyan") [Gives "x"; Gives "y"] in
  c.1 = Propagated (ValueError "unbalanced")
  /\ color_foreground c.2 = "green".
Proof.
  intros callback c.
  destruct (dual_loop_callback_raises callback
              (run callback (_start_loop callback "cyan") [Gives "x"]).2
              "y" (ValueError "unbalanced") eq_refl eq_refl eq_refl)
    as (H1 & _ & _ & H4).
  exact (conj H1 H4).
Defined.

(** ** The single-input loop *)

Section SingleInput.

Variable callback : string -> result string.

Lemma single_run_cons c r answers :
  RunnerInteractiveSingle.run callback c (r :: answers)
  = RunnerInteractiveSingle.run callback
      (RunnerInteractiveSingle.step callback c r) answers.
Proof. reflexivity. Qed.

Lemma single_run_over c answers :
  c.1 <> RunnerInteractiveSingle.InInput ->
  RunnerInteractiveSingle.run callback c answers = c.
Proof.
  intros Hc. induction answers as [|r answers IH]; [reflexivity |].
  rewrite single_run_cons. destruct c as [[| |e] s]; try exact IH.
  now contradiction Hc.
Qed.

(** X20: what one round of the single-input loop does with an exception
    of the read or of the callback: an [EOFError] ends the loop after the
    final newline, a [ValueError] is logged and a [KeyboardInterrupt]
    answered with a notice, both without leaving the loop, and any other
    exception leaves the method; without exception the loop goes on.
    Once the loop is over, further answers change nothing. *)
Theorem single_loop_exceptions :
  forall (s : RunnerInteractiveSingle.Session) (r : result string),
    let c' := RunnerInteractiveSingle.step callback
                (RunnerInteractiveSingle.InInput, s) r in
    match round_exception callback r with
    | None =>
        c'.1 = RunnerInteractiveSingle.InInput
        /\ RunnerInteractiveSingle.logged c'.2 = RunnerInteractiveSingle.logged s
    | Some (EOFError _) =>
        c'.1 = RunnerInteractiveSingle.Returned
        /\ RunnerInteractiveSingle.written c'.2
           = RunnerInteractiveSingle.written s ++ [String "010" ""]
    | Some (ValueError msg) =>
        c'.1 = RunnerInteractiveSingle.InInput
        /\ RunnerInteractiveSingle.logged c'.2
           = RunnerInteractiveSingle.logged s ++ ["error: " +:+ msg]
        /\ RunnerInteractiveSingle.written c'.2 = RunnerInteractiveSingle.written s
    | Some KeyboardInterrupt =>
        c'.1 = RunnerInteractiveSingle.InInput
        /\ RunnerInteractiveSingle.written c'.2
           = RunnerInteractiveSingle.written s
             ++ [String "010" "KeyboardInterrupt" +:+ String "010" ""]
    | Some e =>
        c'.1 = RunnerInteractiveSingle.Propagated e
        /\ RunnerInteractiveSingle.written c'.2 = RunnerInteractiveSingle.written s
        /\ forall answers, RunnerInteractiveSingle.run callback c' answers = c'
    end.
Proof.
  intros s r c'. subst c'.
  unfold round_exception, RunnerInteractiveSingle.step,
    RunnerInteractiveSingle.iteration, RunnerInteractiveSingle._execute_single.
  destruct r as [x|e]; simpl.
  - destruct (truthy x); simpl; [| split; reflexivity].
    destruct (callback x) as [out|e]; simpl; [split; reflexivity |].
    destruct e; simpl; repeat split;
      intros answers; apply single_run_over; discriminate.
  - destruct e; simpl; repeat split;
      intros answers; apply single_run_over; discriminate.
Qed.

End SingleInput.

Lemma single_run_inputs (f : string -> string) (inputs : list string) :
  forall s : RunnerInteractiveSingle.Session,
    RunnerInteractiveSingle.run (fun x => Ok (f x))
      (RunnerInteractiveSingle.InInput, s) (Ok <$> inputs)
    = (RunnerInteractiveSingle.InInput,
       {| RunnerInteractiveSingle.written :=
            RunnerInteractiveSingle.written s
            ++ ((fun x => f x +:+ String "010" "") <$> List.filter truthy inputs);
          RunnerInteractiveSingle.logged := RunnerInteractiveSingle.logged s;
          RunnerInteractiveSingle.executed :=
            RunnerInteractiveSingle.executed s ++ List.filter truthy inputs |}).
Proof.
  induction inputs as [|x inputs IH]; intros [w l ex].
  - simpl. now rewrite !app_nil_r.
  - rewrite fmap_cons, single_run_cons.
    unfold RunnerInteractiveSingle.step, RunnerInteractiveSingle.iteration,
      RunnerInteractiveSingle._execute_single.
    simpl List.filter. destruct (truthy x); simpl.
    + rewrite IH. simpl. now rewrite <- !app_assoc.
    + apply IH.
Qed.

(** X21: fed with inputs only and with a callback that returns, the
    single-input loop calls the callback on the non-empty inputs, in
    order and once each, writes each result followed by a newline, logs
    nothing and keeps waiting. *)
Theorem single_loop_executes_nonempty_inputs :
  forall (f : string -> string) (inputs : list string),
    RunnerInteractiveSingle.run (fun x => Ok (f x))
      (RunnerInteractiveSingle._start_loop) (Ok <$> inputs)
    = (RunnerInteractiveSingle.InInput,
       {| RunnerInteractiveSingle.written :=
            (fun x => f x +:+ String "010" "") <$> List.filter truthy inputs;
          RunnerInteractiveSingle.logged := [];
          RunnerInteractiveSingle.executed := List.filter truthy inputs |}).
Proof.
  intros f inputs. unfold RunnerInteractiveSingle._start_loop.
  now rewrite single_run_inputs.
Qed.

(** ** The tag lookup run once *)

Lemma execute_raises_value_error self prompt kv e :
  execute self prompt kv = Raise e -> exists msg, e = ValueError msg.
Proof.
  unfold execute, split.
  destruct (sep_field (_delimiter self)); [| intros [= <-]; eauto].
  destruct (sep_input (_delimiter self)); simpl; [intros [= <-]; eauto |].
  destruct (split_scan _ _ _). discriminate.
Qed.

(** X22: the non-interactive tag lookup.  With usable separators a read
    that ends or is interrupted prints the empty string and exits with
    status 1, and a successful read prints the lookup of the stripped
    input and exits with status 0; with a field separator that is not
    set or an empty input separator nothing is printed, the [ValueError]
    of the lookup leaves the method and the status is 1, whatever the
    read did. *)
Theorem tag_find_run_once :
  forall (self : RunnerTagFindNonInteractive.t) (a : answer),
    let o := RunnerNonInteractiveSingle._run_once
               (RunnerTagFindNonInteractive._execute_single_inner self) a in
    let d := _delimiter (RunnerTagFindNonInteractive._app self) in
    (sep_field d <> None -> sep_input d <> "" ->
       (a = EndOfInput \/ a = Interrupted ->
          RunnerNonInteractiveSingle.written o = [""]
          /\ RunnerNonInteractiveSingle.exit_status o = 1)
       /\ (forall s, a = Gives s ->
             RunnerNonInteractiveSingle.exit_status o = 0
             /\ exists out,
                  execute (RunnerTagFindNonInteractive._app self) (strip s)
                    (RunnerTagFindNonInteractive.tags_n_count self) = Ok out
                  /\ RunnerNonInteractiveSingle.written o = [out]))
    /\ (sep_field d = None \/ sep_input d = "" ->
        RunnerNonInteractiveSingle.written o = []
        /\ RunnerNonInteractiveSingle.exit_status o = 1
        /\ exists msg,
             RunnerNonInteractiveSingle.raised o = Some (ValueError msg)).
Proof.
  intros self a o d. subst o d.
  destruct self as [finder tags]. simpl.
  unfold RunnerNonInteractiveSingle._run_once,
    RunnerNonInteractiveSingle.finally,
    RunnerNonInteractiveSingle._execute_single,
    RunnerNonInteractiveSingle.exit_status,
    RunnerTagFindNonInteractive._execute_single_inner. simpl.
  split.
  - intros Hf Hin.
    assert (Hret : forall p, exists out, execute finder p tags = Ok out).
    { intros p. pose proof (proj2 (execute_returns_iff finder p tags)
                              (conj Hf Hin)) as Hr.
      destruct (execute finder p tags); [eauto | discriminate Hr]. }
    assert (Hempty : execute finder "" tags = Ok "").
    { unfold execute, split.
      destruct (sep_field (_delimiter finder)); [| congruence].
      destruct (sep_input (_delimiter finder)); [congruence | reflexivity]. }
    split.
    + intros [-> | ->]; rewrite Hempty; split; reflexivity.
    + intros s ->. destruct (Hret (strip s)) as [out Hout]. rewrite Hout.
      simpl. split; [reflexivity |]. exists out. split; reflexivity.
  - intros Hbad.
    assert (Hfail : forall p, exists msg,
               execute finder p tags = Raise (ValueError msg)).
    { intros p. pose proof (execute_returns_iff finder p tags) as Hr.
      destruct (execute finder p tags) as [out|e] eqn:He.
      - destruct (proj1 Hr eq_refl) as [Hf Hin].
        destruct Hbad; contradiction.
      - destruct (execute_raises_value_error _ _ _ _ He) as [msg ->]. eauto. }
    destruct a as [s | | | msg0];
      [destruct (Hfail (strip s)) as [msg Hm]
      |destruct (Hfail "") as [msg Hm]
      |destruct (Hfail "") as [msg Hm]
      |destruct (Hfail "") as [msg Hm]];
      rewrite Hm; simpl; repeat split; eauto.
Qed.

Lemma tag_find_run_once_witness :
  let o := RunnerNonInteractiveSingle._run_once
             (RunnerTagFindNonInteractive._execute_single_inner scenario_runner)
             (Gives " fox ") in
  RunnerNonInteractiveSingle.exit_status o = 0.
Proof.
  intros o.
  destruct (tag_find_run_once scenario_runner (Gives " fox ")) as [H _].
  destruct (H ltac:(discriminate) ltac:(discriminate)) as [_ H2].
  exact (proj1 (H2 " fox " eq_refl)).
Defined.

Lemma multiple_init_labels_witness :
  MultipleInputStrategy.ps2 (MultipleInputStrategy.__init__ ">>> " "") = ">>> "
  /\ "" = "".
Proof.
  split.
  - exact (proj1 (proj2 (multiple_init_labels ">>> " ""))).
  - exact (proj2 (proj2 (multiple_init_labels "" "")) eq_refl).
Defined.

Lemma execute_failure_witness :
  exists msg, ValueError "field delimiter is None" = ValueError msg.
Proof.
  exact (proj1 (proj2 (execute_failure
                         {| _delimiter := {| sep_input := ",";
                                             sep_output := ", ";
                                             sep_field := None |};
                            _formatter := Formatter.to_a1111 |} "cat" ∅))
           _ eq_refl).
Defined.
